(** * PraktikumWebAgents: the hierarchical browser agent

    A shallow embedding of [src/agent/planner.py] (ChecklistPlanner.plan),
    [src/agent/hierarchical_agent.py] (SubtaskStatus, _keep_last_page,
    HierarchicalAgent.run) and of the caller [run_task] in
    [src/run_online_mw2.py], followed by the properties of the
    orchestration loop: teardown, fail-fast subtasks, tab handoff, progress
    digest, trace assembly and scheduling.

    The external collaborators (the two LLM chains of the planner, the
    browser-use step executor wrapped in [asyncio.wait_for], Playwright's
    [page.close]) are not code of the repository: they are the fields of
    an environment record [Env], and every theorem quantifies over it. *)

From Stdlib Require Import ZArith.
From stdpp Require Import base strings list gmap pretty.

Open Scope string_scope.
Open Scope list_scope.

(* ===================================================================== *)
(** ** Python values, exceptions and results                             *)
(* ===================================================================== *)

(** The exceptions that reach the code, each with its [str()].
    [CancelledError] derives from [BaseException] only, so an
    [except Exception] clause does not catch it; every other constructor is
    an [Exception].  [TimeoutError] is any [asyncio.TimeoutError]: the one
    [asyncio.wait_for] raises when the deadline expires has no arguments
    and the empty text, one the executor raises itself has the text it was
    given. *)
Inductive PyExc : Type :=
  | TimeoutError (msg : string)     (* asyncio.TimeoutError *)
  | TypeError (msg : string)
  | IndexError (msg : string)
  | Exception (msg : string)        (* any other Exception, with its str() *)
  | CancelledError.                 (* asyncio.CancelledError *)

Definition is_Exception (e : PyExc) : bool :=
  match e with
  | CancelledError => false
  | _ => true
  end.

(** [str(e)] *)
Definition str_exc (e : PyExc) : string :=
  match e with
  | TimeoutError m | TypeError m | IndexError m | Exception m => m
  | CancelledError => ""
  end.

(** A call either returns a value or raises. *)
Inductive Result (A : Type) : Type :=
  | Ok (a : A)
  | Raise (e : PyExc).
Arguments Ok {A} a.
Arguments Raise {A} e.

(** Values a structured-output chain can put in [_Plan.steps]. *)
Inductive PyVal : Type :=
  | PyStr (s : string)
  | PyInt (z : Z)
  | PyBool (b : bool)
  | PyNone.

(** [isinstance(v, str)] *)
Definition isinstance_str (v : PyVal) : bool :=
  match v with
  | PyStr _ => true
  | _ => false
  end.

Definition as_str (v : PyVal) : option string :=
  match v with
  | PyStr s => Some s
  | _ => None
  end.

(** A Python float, kept as the text [str()] gives for it (the shortest
    repr, which determines the float). *)
Inductive PyFloat : Type := Float (repr : string).

Definition str_float (f : PyFloat) : string := let 'Float r := f in r.

(* ===================================================================== *)
(** ** SubtaskStatus                                                     *)
(* ===================================================================== *)

Record SubtaskStatus : Type := mkStatus {
  name : string;
  done : bool;
  error : option string;
}.

(** [SubtaskStatus(name=s)] with the dataclass defaults *)
Definition new_status (s : string) : SubtaskStatus :=
  {| name := s; done := false; error := None |}.

Definition mark_done (st : SubtaskStatus) : SubtaskStatus :=
  {| name := name st; done := true; error := error st |}.

Definition mark_error (err : string) (st : SubtaskStatus) : SubtaskStatus :=
  {| name := name st; done := done st; error := Some err |}.

(** [statuses[i].m()] : the object at position [i] is mutated in place;
    indexing past the end raises IndexError. *)
Definition mutate_at (i : nat) (m : SubtaskStatus -> SubtaskStatus)
    (statuses : list SubtaskStatus) : option (list SubtaskStatus) :=
  match statuses !! i with
  | Some st => Some (<[i := m st]> statuses)
  | None => None
  end.

(* ===================================================================== *)
(** ** Browser context and the tab handoff                               *)
(* ===================================================================== *)

(** A page object is a handle: its position in the context's page list,
    which Playwright keeps in creation order. *)
Abbreviation Page := nat.

Inductive TabState : Type := TabOpen | TabClosed.

Abbreviation BrowserContext := (list TabState).

(** [context.pages] *)
Definition context_pages (ctx : BrowserContext) : list Page :=
  seq 0 (length ctx).

(** [p.is_closed()] *)
Definition is_closed (ctx : BrowserContext) (p : Page) : bool :=
  match ctx !! p with
  | Some TabOpen => false
  | _ => true
  end.

(** [await p.close()].  The call fails exactly when the tab vanished
    between the enumeration and the call ([vanished p]); either way the tab
    is not open afterwards. *)
Definition close (vanished : Page -> bool) (p : Page) (ctx : BrowserContext)
    : Result unit * BrowserContext :=
  (if vanished p
   then Raise (Exception "Target page, context or browser has been closed")
   else Ok tt,
   <[p := TabClosed]> ctx).

(** The loop [for p in pages[:-1]: try: await p.close() except Exception: pass].
    The third component lists the pages whose [close] raised. *)
Fixpoint close_earlier (vanished : Page -> bool) (ps : list Page)
    (ctx : BrowserContext) : Result unit * BrowserContext * list Page :=
  match ps with
  | [] => (Ok tt, ctx, [])
  | p :: ps' =>
      match close vanished p ctx with
      | (Ok _, ctx') => close_earlier vanished ps' ctx'
      | (Raise e, ctx') =>
          if is_Exception e
          then (* pass *)
            let '(r, ctx'', skipped) := close_earlier vanished ps' ctx' in
            (r, ctx'', p :: skipped)
          else (Raise e, ctx', [])
      end
  end.

(** The context once [close] was called on each page of [ps], whether
    the calls returned or raised. *)
Definition closed_all (ps : list Page) (ctx : BrowserContext) : BrowserContext :=
  foldl (fun c p => <[p := TabClosed]> c) ctx ps.

(** The pages that pass [not p.is_closed()], in creation order. *)
Definition open_pages (ctx : BrowserContext) : list Page :=
  filter (fun p => is_closed ctx p = false) (context_pages ctx).

Definition _keep_last_page (vanished : Page -> bool) (ctx : BrowserContext)
    : Result (option Page) * BrowserContext :=
  let pages := open_pages ctx in
  match last pages with
  | None => (Ok None, ctx)                      (* if not pages: return None *)
  | Some lastp =>                               (* last = pages[-1] *)
      match close_earlier vanished (removelast pages) ctx with
      | (Ok _, ctx', _) => (Ok (Some lastp), ctx')
      | (Raise e, ctx', _) => (Raise e, ctx')
      end
  end.

(* ===================================================================== *)
(** ** Text helpers                                                      *)
(* ===================================================================== *)

Definition nl : string := String (Ascii.ascii_of_nat 10) "".

(** ["\n".join(lines)] *)
Fixpoint join_nl (lines : list string) : string :=
  match lines with
  | [] => ""
  | [l] => l
  | l :: rest => l +:+ nl +:+ join_nl rest
  end.

(** [str.strip()] on ASCII text: the whitespace characters are the space,
    codes 9 to 13 and codes 28 to 31. *)
Definition is_whitespace (c : Ascii.ascii) : bool :=
  let n := Ascii.nat_of_ascii c in
  ((n =? 32) || ((9 <=? n) && (n <=? 13)) || ((28 <=? n) && (n <=? 31)))%nat.

Fixpoint lstrip (s : string) : string :=
  match s with
  | EmptyString => EmptyString
  | String c s' => if is_whitespace c then lstrip s' else s
  end.

Definition strip (s : string) : string :=
  String.rev (lstrip (String.rev (lstrip s))).

(* ===================================================================== *)
(** ** ChecklistPlanner.plan                                             *)
(* ===================================================================== *)

(** One step record of a sub-history, as [save_mind2web_trace] reads it. *)
Record StepResult : Type := mkStepResult {
  is_done : bool;
  step_error : option string;
}.

Record Step : Type := mkStep {
  screenshot : string;
  model_output : option string;
  step_result : list StepResult;
}.

(** What the step executor returns, after [model_dump()]: a dict whose
    ["history"] key may be missing. *)
Record SubHistory : Type := mkSubHistory {
  sh_history : option (list Step);
}.

(** [sub_dump.get("history", [])] *)
Definition sub_dump_history (h : SubHistory) : list Step :=
  default [] (sh_history h).

(** One entry of [initial_actions], and the [sensitive_data] dict. *)
Abbreviation ActionDict := (gmap string (gmap string string)).

(** The values stored in the keyword dict [params]. *)
Inductive PVal : Type :=
  | VStr (s : string)
  | VInt (z : Z)
  | VBool (b : bool)
  | VLlm                           (* self.llm *)
  | VSession                       (* the shared BrowserSession *)
  | VPage (p : option Page)
  | VActions (a : list ActionDict)
  | VSensitive (d : ActionDict).

(** The external collaborators. *)
Record Env : Type := mkEnv {
  (** [self._planner_chain.ainvoke({"task": full_task})], then [.steps] *)
  planner_chain : string -> Result (list PyVal);
  (** [self._refine_chain.ainvoke({"plan": raw_plan.steps})], then [.steps] *)
  refine_chain : list PyVal -> Result (list PyVal);
  (** [asyncio.wait_for(agent.run(max_steps), timeout)] on the agent built
      from [params]
      for the subtask numbered [idx], started on the given browser state:
      its outcome and the browser state it leaves. *)
  agent_run : nat -> gmap string PVal -> Z -> PyFloat -> BrowserContext ->
              Result SubHistory * BrowserContext;
  (** whether a tab vanishes before the handoff reaches its [close] *)
  vanished : Page -> bool;
}.

(** The calls and status updates of a run, in the order they happen.
    [EvIteration], [EvMarkDone] and [EvMarkError] carry the status list as
    it is right after the event. *)
Inductive Event : Type :=
  | EvInitBrowser
  | EvPlannerChain (full_task : string)
  | EvRefineChain (raw : list PyVal)
  | EvSessionStart
  | EvIteration (idx : nat) (statuses : list SubtaskStatus)
  | EvAgentRun (idx : nat) (params : gmap string PVal)
  | EvReturned (idx : nat) (sub_history : SubHistory)
  | EvRaised (idx : nat) (e : PyExc)
  | EvMarkDone (idx : nat) (statuses : list SubtaskStatus)
  | EvMarkError (idx : nat) (err : string) (statuses : list SubtaskStatus)
  | EvKeepLastPage (idx : nat) (page : option Page)
  | EvSessionKill
  | EvPlaywrightStop.

Definition plan (env : Env) (task website : string)
    : Result (list string) * list Event :=
  let full_task := strip task +:+ ". Website: " +:+ strip website in
  match planner_chain env full_task with
  | Raise e => (Raise e, [EvPlannerChain full_task])
  | Ok raw =>
      match refine_chain env raw with
      | Raise e => (Raise e, [EvPlannerChain full_task; EvRefineChain raw])
      | Ok refined =>
          ( if forallb isinstance_str refined
            then Ok (omap as_str refined)
            else Raise (TypeError "Planner must return List[str]"),
            [EvPlannerChain full_task; EvRefineChain raw] )
      end
  end.

(* ===================================================================== *)
(** ** HierarchicalAgent                                                 *)
(* ===================================================================== *)

Inductive Playwright : Type := PlaywrightHandle.

(** The attributes of the agent object ([self.llm] and [self.planner] are
    the collaborators of [Env]). *)
Record HierarchicalAgent : Type := mkAgent {
  show_browser : bool;
  max_actions_per_subtask : Z;
  initial_actions : option (list ActionDict);
  subtask_timeout : PyFloat;
  playwright : option Playwright;
  context : option BrowserContext;
  sensitive_data : ActionDict;
}.

(** [HierarchicalAgent.__init__] *)
Definition new_agent (show : bool) (max_actions : Z)
    (initial : option (list ActionDict)) (timeout : PyFloat)
    (sensitive : option ActionDict) : HierarchicalAgent :=
  {| show_browser := show;
     max_actions_per_subtask := max_actions;
     initial_actions := initial;
     subtask_timeout := timeout;
     playwright := None;
     context := None;
     sensitive_data := default ∅ sensitive |}.

(** [_init_browser]: start Playwright, launch Chromium, open a context
    (which has no page yet).  The three awaits are taken to return; a
    launch that raises would end [run] at its second statement, before
    the planner is called, and is not followed here. *)
Definition _init_browser (self : HierarchicalAgent) : HierarchicalAgent :=
  {| show_browser := show_browser self;
     max_actions_per_subtask := max_actions_per_subtask self;
     initial_actions := initial_actions self;
     subtask_timeout := subtask_timeout self;
     playwright := Some PlaywrightHandle;
     context := Some [];
     sensitive_data := sensitive_data self |}.

(** Truth value of [self.initial_actions]: neither [None] nor empty. *)
Definition actions_truthy (a : option (list ActionDict)) : bool :=
  match a with
  | Some (_ :: _) => true
  | _ => false
  end.

(** Truth value of [st.error]: neither [None] nor the empty string. *)
Definition error_truthy (e : option string) : option string :=
  match e with
  | Some (String c s) => Some (String c s)
  | _ => None
  end.

(** The three f-strings of the progress digest. *)
Definition line_done (j : nat) (st : SubtaskStatus) : string :=
  "✔️ Step " +:+ pretty j +:+ ": " +:+ name st.

Definition line_error (j : nat) (st : SubtaskStatus) (err : string) : string :=
  "❌ Step " +:+ pretty j +:+ ": " +:+ name st +:+ " (error: " +:+ err +:+ ")".

Definition line_next (j : nat) (st : SubtaskStatus) : string :=
  "🔄 Step " +:+ pretty j +:+ ": " +:+ name st +:+ " (COMING UP NEXT)".

(** The progress digest: the loop over [enumerate(statuses, start=1)],
    [j] being the number of the head of the list. *)
Fixpoint progress_lines_from (idx j : nat) (statuses : list SubtaskStatus)
    : list string :=
  match statuses with
  | [] => []
  | st :: rest =>
      (if (j <? idx)%nat then
         if done st then [line_done j st]
         else
           match error_truthy (error st) with
           | Some err => [line_error j st err]
           | None => []
           end
       else [line_next j st])
      ++ progress_lines_from idx (S j) rest
  end.

Definition progress_lines (idx : nat) (statuses : list SubtaskStatus)
    : list string :=
  progress_lines_from idx 1 statuses.

Definition formatted_progress (idx : nat) (statuses : list SubtaskStatus)
    : string :=
  join_nl (progress_lines idx statuses).

Definition indent : string := "                ".

(** The f-string [extra]. *)
Definition extend_system_message (task progress : string) : string :=
  nl +:+
  indent +:+ "### Context" +:+ nl +:+
  indent +:+ "You are an **autonomous browser agent** executing one checklist item at a time inside a" +:+ nl +:+
  indent +:+ "shared browser session." +:+ nl +:+
  nl +:+
  indent +:+ "• **High-level goal (for reference only)**  " +:+ nl +:+
  indent +:+ task +:+ nl +:+
  nl +:+
  indent +:+ "### Checklist status" +:+ nl +:+
  indent +:+ progress +:+ nl +:+
  nl +:+
  indent +:+ "### How to work on the *current* subtask" +:+ nl +:+
  indent +:+ "1. Start in the active tab.  " +:+ nl +:+
  indent +:+ "2. **If** you need new information, the element you need is missing, or you have taken" +:+ nl +:+
  indent +:+ "two actions without progress – **open a NEW tab** and run a Google query whose" +:+ nl +:+
  indent +:+ "keywords come from the subtask description.  " +:+ nl +:+
  indent +:+ "3. Close any tabs you no longer need so that **only one tab is left** before you finish.  " +:+ nl +:+
  indent +:+ "4. When the subtask is complete, return `DONE` and any required result data." +:+ nl +:+
  nl +:+
  indent +:+ "Stay strictly inside the scope of the current subtask; do not begin future subtasks early." +:+ nl +:+
  indent.

(** The keyword dict [params] of one iteration. *)
Definition build_params (self : HierarchicalAgent) (task : string)
    (idx : nat) (subtask : string) (page : option Page)
    (statuses : list SubtaskStatus) : gmap string PVal :=
  let params : gmap string PVal :=
    <["validate_output" := VBool true]>
    (<["max_actions_per_step" := VInt 1]>
    (<["page" := VPage page]>
    (<["browser_session" := VSession]>
    (<["llm" := VLlm]>
    (<["task" := VStr subtask]> ∅))))) in
  let params :=
    if (idx =? 1)%nat && actions_truthy (initial_actions self)
    then <["initial_actions" := VActions (default [] (initial_actions self))]> params
    else params in
  let params :=
    if bool_decide (sensitive_data self = ∅)
    then params
    else <["sensitive_data" := VSensitive (sensitive_data self)]> params in
  <["extend_system_message" :=
      VStr (extend_system_message task (formatted_progress idx statuses))]> params.

(** The local variables of [run] while the loop executes, with the state
    of the browser context the session holds. *)
Record Frame : Type := mkFrame {
  statuses : list SubtaskStatus;
  combined_history : list Step;
  page : option Page;
  agent_current_page : option Page;
  human_current_page : option Page;
  browser_context : BrowserContext;
}.

Definition timeout_message (self : HierarchicalAgent) : string :=
  "timed out after " +:+ str_float (subtask_timeout self) +:+ "s".

(** The body of an [except] clause of the loop: record the error on
    [statuses[idx - 1]], then re-raise. *)
Definition fail_subtask (idx : nat) (err : string) (e : PyExc) (f : Frame)
    : Result unit * Frame * list Event :=
  match mutate_at (idx - 1) (mark_error err) (statuses f) with
  | None => (Raise (IndexError "list index out of range"), f, [])
  | Some sts =>
      (Raise e,
       {| statuses := sts;
          combined_history := combined_history f;
          page := page f;
          agent_current_page := agent_current_page f;
          human_current_page := human_current_page f;
          browser_context := browser_context f |},
       [EvMarkError idx err sts])
  end.

(** The two [except] clauses around the executor call:
    [except asyncio.TimeoutError] first, then [except Exception as e]; an
    exception that is neither (a cancellation) passes through untouched. *)
Definition except_clauses (self : HierarchicalAgent) (idx : nat) (e : PyExc)
    (f : Frame) : Result unit * Frame * list Event :=
  match e with
  | TimeoutError _ => fail_subtask idx (timeout_message self) e f
  | _ =>
      if is_Exception e
      then fail_subtask idx (str_exc e) e f
      else (Raise e, f, [])
  end.

(** The frame once the executor call of an iteration is over: the
    session's current pages were set to [page] before the call, and the
    call left the browser in state [ctx]. *)
Definition after_executor (f : Frame) (ctx : BrowserContext) : Frame :=
  {| statuses := statuses f;
     combined_history := combined_history f;
     page := page f;
     agent_current_page := page f;
     human_current_page := page f;
     browser_context := ctx |}.

(** The frame at the end of a completed iteration. *)
Definition after_subtask (f : Frame) (sts : list SubtaskStatus)
    (sub_history : SubHistory) (page' : option Page) (ctx : BrowserContext)
    : Frame :=
  {| statuses := sts;
     combined_history := combined_history f ++ sub_dump_history sub_history;
     page := page';
     agent_current_page := page f;
     human_current_page := page f;
     browser_context := ctx |}.

(** The events that open an iteration. *)
Definition iteration_start (self : HierarchicalAgent) (task : string)
    (idx : nat) (subtask : string) (f : Frame) : list Event :=
  [EvIteration idx (statuses f);
   EvAgentRun idx (build_params self task idx subtask (page f) (statuses f))].

(** The [for idx, subtask in enumerate(checklist, start=1)] loop, from the
    subtask numbered [idx] on.  It returns how the loop ended, the locals
    at that moment and the events of these iterations. *)
Fixpoint run_subtasks (env : Env) (self : HierarchicalAgent) (task : string)
    (idx : nat) (rest : list string) (f : Frame)
    : Result unit * Frame * list Event :=
  match rest with
  | [] => (Ok tt, f, [])
  | subtask :: rest' =>
      let params := build_params self task idx subtask (page f) (statuses f) in
      let before := iteration_start self task idx subtask f in
      let '(outcome, ctx1) :=
        agent_run env idx params (max_actions_per_subtask self)
                  (subtask_timeout self) (browser_context f) in
      match outcome with
      | Ok sub_history =>
          match mutate_at (idx - 1) mark_done (statuses f) with
          | None =>
              (* IndexError inside the try: the handler indexes again *)
              (Raise (IndexError "list index out of range"),
               after_executor f ctx1,
               before ++ [EvReturned idx sub_history])
          | Some sts =>
              let evs := before ++ [EvReturned idx sub_history;
                                    EvMarkDone idx sts] in
              match _keep_last_page (vanished env) ctx1 with
              | (Ok page', ctx2) =>
                  let '(r, f', later) :=
                    run_subtasks env self task (S idx) rest'
                      (after_subtask f sts sub_history page' ctx2) in
                  (r, f', evs ++ [EvKeepLastPage idx page'] ++ later)
              | (Raise e, ctx2) =>
                  (Raise e, after_subtask f sts sub_history (page f) ctx2, evs)
              end
          end
      | Raise e =>
          let '(r, f', evs) :=
            except_clauses self idx e (after_executor f ctx1) in
          (r, f', before ++ [EvRaised idx e] ++ evs)
      end
  end.

(** The dict [run] returns. *)
Record Trace : Type := mkTrace {
  history : list Step;
  subtask_history : list SubtaskStatus;
}.

(** [try: await session.kill() finally: if self.playwright: await
    self.playwright.stop()], and the same two calls after the loop. *)
Definition teardown (self : HierarchicalAgent) : list Event :=
  EvSessionKill ::
  match playwright self with
  | Some _ => [EvPlaywrightStop]
  | None => []
  end.

(** What a call of [run] amounts to: what the caller gets ([returned]),
    the agent object afterwards, the locals of the frame when it was left
    (they are dropped with the frame; [None] if the loop was not reached)
    and the events in order. *)
Record RunOutcome : Type := mkRunOutcome {
  returned : Result Trace;
  self_after : HierarchicalAgent;
  frame : option Frame;
  events : list Event;
}.

Definition with_context (self : HierarchicalAgent) (ctx : BrowserContext)
    : HierarchicalAgent :=
  {| show_browser := show_browser self;
     max_actions_per_subtask := max_actions_per_subtask self;
     initial_actions := initial_actions self;
     subtask_timeout := subtask_timeout self;
     playwright := playwright self;
     context := Some ctx;
     sensitive_data := sensitive_data self |}.

(** [if not self.context: await self._init_browser()] *)
Definition ensure_browser (self : HierarchicalAgent)
    : HierarchicalAgent * list Event :=
  match context self with
  | None => (_init_browser self, [EvInitBrowser])
  | Some _ => (self, [])
  end.

(** The locals right before the loop. *)
Definition initial_frame (self : HierarchicalAgent) (checklist : list string)
    : Frame :=
  {| statuses := new_status <$> checklist;
     combined_history := [];
     page := None;
     agent_current_page := None;
     human_current_page := None;
     browser_context := default [] (context self) |}.

Definition run (env : Env) (self : HierarchicalAgent) (task website : string)
    : RunOutcome :=
  let '(self, ev_init) := ensure_browser self in
  let '(planned, ev_plan) := plan env task website in
  match planned with
  | Raise e =>
      {| returned := Raise e; self_after := self; frame := None;
         events := ev_init ++ ev_plan |}
  | Ok checklist =>
      let '(r, f, ev_loop) :=
        run_subtasks env self task 1 checklist (initial_frame self checklist) in
      let ev := ev_init ++ ev_plan ++ [EvSessionStart] ++ ev_loop
                ++ teardown self (* finally *) in
      match r with
      | Raise e =>
          {| returned := Raise e;
             self_after := with_context self (browser_context f);
             frame := Some f; events := ev |}
      | Ok _ =>
          {| returned := Ok {| history := combined_history f;
                               subtask_history := statuses f |};
             self_after := with_context self (browser_context f);
             frame := Some f;
             events := ev ++ teardown self (* after the try statement *) |}
      end
  end.

(* ===================================================================== *)
(** ** The caller: run_task (hierarchical mode)                          *)
(* ===================================================================== *)

(** The minimal error [result.json]. *)
Record ErrorResult : Type := mkErrorResult {
  er_task : string;
  er_action_history : list string;
  er_thoughts : option string;
  er_final_result_response : string;
  er_input_image_paths : list string;
}.

Inductive TaskOutput : Type :=
  | SavedTrace (history : Trace)       (* save_mind2web_trace(history, ...) *)
  | SavedError (result : ErrorResult)  (* the else branch *)
  | Propagated (e : PyExc).            (* not caught by [except Exception] *)

Definition task_sensitive_data : ActionDict :=
  {[ "https://amazon.de" :=
       <["username" := "alp59371@gmail.com"]>
       (<["password" := "testAccount123"]> ∅) ]}.

Definition task_agent (website : string) : HierarchicalAgent :=
  new_agent false 30
    (Some [ {[ "go_to_url" := {[ "url" := website ]} ]} ])
    (Float "60.0")
    (Some task_sensitive_data).

Definition run_task (env : Env) (confirmed_task website : string)
    : TaskOutput :=
  match returned (run env (task_agent website) confirmed_task website) with
  | Ok history => SavedTrace history
  | Raise e =>
      if is_Exception e then
        SavedError {| er_task := confirmed_task;
                      er_action_history := [];
                      er_thoughts := None;
                      er_final_result_response := "Exception: " +:+ str_exc e;
                      er_input_image_paths := [] |}
      else Propagated e
  end.

(* ===================================================================== *)
(** ** Observations on the events of a run                               *)
(* ===================================================================== *)

(** How often the session teardown ran. *)
Definition is_session_kill (ev : Event) : bool :=
  match ev with
  | EvSessionKill => true
  | _ => false
  end.

Definition is_playwright_stop (ev : Event) : bool :=
  match ev with
  | EvPlaywrightStop => true
  | _ => false
  end.

Definition session_kills (evs : list Event) : nat :=
  length (List.filter is_session_kill evs).

Definition playwright_stops (evs : list Event) : nat :=
  length (List.filter is_playwright_stop evs).

(** The executor invocations, in order: subtask number and keyword dict. *)
Definition invocations (evs : list Event) : list (nat * gmap string PVal) :=
  omap (fun ev => match ev with
                  | EvAgentRun idx params => Some (idx, params)
                  | _ => None
                  end) evs.

(** The sub-histories the executor returned, in order, each with the
    number of its subtask. *)
Definition returned_histories (evs : list Event) : list (nat * SubHistory) :=
  omap (fun ev => match ev with
                  | EvReturned idx h => Some (idx, h)
                  | _ => None
                  end) evs.

(** The status list at each point where it, or the current index, has
    just changed. *)
Definition snapshots (evs : list Event) : list (nat * list SubtaskStatus) :=
  omap (fun ev => match ev with
                  | EvIteration idx sts => Some (idx, sts)
                  | EvMarkDone idx sts => Some (idx, sts)
                  | EvMarkError idx _ sts => Some (idx, sts)
                  | _ => None
                  end) evs.

(** The schedule of a run: what happens to which subtask, in order. *)
Inductive Label : Type :=
  | Invoked (idx : nat) (subtask : option PVal)
  | Returned (idx : nat)
  | Raised (idx : nat)
  | Terminal (idx : nat)
  | HandedOff (idx : nat).

Definition schedule (evs : list Event) : list Label :=
  omap (fun ev => match ev with
                  | EvAgentRun idx params => Some (Invoked idx (params !! "task"))
                  | EvReturned idx _ => Some (Returned idx)
                  | EvRaised idx _ => Some (Raised idx)
                  | EvMarkDone idx _ => Some (Terminal idx)
                  | EvMarkError idx _ _ => Some (Terminal idx)
                  | EvKeepLastPage idx _ => Some (HandedOff idx)
                  | _ => None
                  end) evs.

(** [enumerate(l, start)] *)
Definition enumerate {A : Type} (start : nat) (l : list A) : list (nat * A) :=
  zip (seq start (length l)) l.

(** The status classes the code can tell apart. *)
Definition pending (st : SubtaskStatus) : Prop :=
  done st = false /\ error st = None.

Definition terminal (st : SubtaskStatus) : Prop :=
  done st = true \/ is_Some (error st).

(** What holds of the status list while the subtask numbered [i] is the
    current one. *)
Definition code_invariant (i : nat) (sts : list SubtaskStatus) : Prop :=
  forall j st, sts !! j = Some st ->
    (j + 1 < i -> done st = true /\ error st = None) /\
    (i < j + 1 -> pending st).

(** The invariant in the words of the data model, for a reading [running]
    of its Running state: at most one status is running, those before the
    current index are terminal, those at or after it are pending unless
    running. *)
Definition spec_invariant (running : SubtaskStatus -> Prop) (i : nat)
    (sts : list SubtaskStatus) : Prop :=
  (forall j k stj stk, sts !! j = Some stj -> sts !! k = Some stk ->
      running stj -> running stk -> j = k) /\
  (forall j st, sts !! j = Some st -> j + 1 < i -> terminal st) /\
  (forall j st, sts !! j = Some st -> i <= j + 1 -> ~ running st -> pending st).

(** What holds of the status list right after an event of the loop that
    carries it: the invariant of the current index, and for the status at
    the current index itself, pending at the head of the iteration, done
    with no error after [mark_done], not done with the recorded text after
    [mark_error]. *)
Definition status_invariant_at (ev : Event) : Prop :=
  match ev with
  | EvIteration i sts =>
      1 <= i /\ code_invariant i sts
      /\ exists st, sts !! (i - 1) = Some st /\ pending st
  | EvMarkDone i sts =>
      1 <= i /\ code_invariant i sts
      /\ exists st, sts !! (i - 1) = Some st
                    /\ done st = true /\ error st = None
  | EvMarkError i err sts =>
      1 <= i /\ code_invariant i sts
      /\ exists st, sts !! (i - 1) = Some st
                    /\ done st = false /\ error st = Some err
  | _ => True
  end.

(** The status of a completed subtask, and the shape of the status list
    when the subtasks [pre] are completed and those of [rest] not started. *)
Definition done_status (s : string) : SubtaskStatus := mark_done (new_status s).

Definition statuses_at (pre rest : list string) : list SubtaskStatus :=
  (done_status <$> pre) ++ (new_status <$> rest).

(** The text an [except] clause records for [e], if one catches it. *)
Definition failure_message (self : HierarchicalAgent) (e : PyExc)
    : option string :=
  match e with
  | TimeoutError _ => Some (timeout_message self)
  | _ => if is_Exception e then Some (str_exc e) else None
  end.

(** The subtask number an event of the loop belongs to. *)
Definition event_idx (ev : Event) : option nat :=
  match ev with
  | EvIteration idx _ | EvAgentRun idx _ | EvReturned idx _ | EvRaised idx _
  | EvMarkDone idx _ | EvMarkError idx _ _ | EvKeepLastPage idx _ => Some idx
  | _ => None
  end.

(** The status of a subtask whose executor call raised [e]: the error text
    is recorded if an [except] clause catches [e]. *)
Definition status_after (self : HierarchicalAgent) (e : PyExc) (subtask : string)
    : SubtaskStatus :=
  from_option (fun m => mark_error m (new_status subtask))
              (new_status subtask) (failure_message self e).

(** The four steps a completed subtask goes through. *)
Definition completed_steps (x : nat * string) : list Label :=
  [Invoked x.1 (Some (VStr x.2)); Returned x.1; Terminal x.1; HandedOff x.1].

(** The digest line of an entry before the current index, if it gets one. *)
Definition past_line (x : nat * SubtaskStatus) : option string :=
  if done x.2 then Some (line_done x.1 x.2)
  else line_error x.1 x.2 <$> error_truthy (error x.2).

(** The digest line of an entry at or after the current index. *)
Definition next_line (x : nat * SubtaskStatus) : string := line_next x.1 x.2.

(* ===================================================================== *)
(** ** Sample runs                                                       *)
(* ===================================================================== *)

Definition sample_checklist : list string :=
  ["open search page"; "apply filter X"; "select first result"].

(** A sub-history of one step, tagged by its screenshot. *)
Definition one_step (tag : string) : SubHistory :=
  {| sh_history :=
       Some [ {| screenshot := tag; model_output := Some "click";
                 step_result := [ {| is_done := true; step_error := None |} ] |} ] |}.

(** An environment whose planner yields [refined] and whose executor opens
    two tabs per subtask and ends as [outcome] says. *)
Definition sample_env (refined : list PyVal) (outcome : nat -> Result SubHistory)
    : Env :=
  {| planner_chain := fun _ => Ok [PyStr "search, filter, pick the first result"];
     refine_chain := fun _ => Ok refined;
     agent_run := fun idx _ _ _ ctx => (outcome idx, ctx ++ [TabOpen; TabOpen]);
     vanished := fun p => (p =? 0)%nat |}.

Definition all_complete (idx : nat) : Result SubHistory :=
  Ok (one_step (pretty idx)).

(** Subtask 2 runs into the deadline; subtask 1 leaves a step tagged [tag]. *)
Definition second_times_out (tag : string) (idx : nat) : Result SubHistory :=
  if (idx =? 2)%nat then Raise (TimeoutError "") else Ok (one_step tag).

(** The executor call of subtask 2 raises [e]. *)
Definition second_raises (e : PyExc) (idx : nat) : Result SubHistory :=
  if (idx =? 2)%nat then Raise e else Ok (one_step "s1").

(** An environment whose planning service is down. *)
Definition planner_down : Env :=
  {| planner_chain := fun _ => Raise (Exception "planning service unavailable");
     refine_chain := fun _ => Ok [];
     agent_run := fun idx _ _ _ ctx => (all_complete idx, ctx);
     vanished := fun _ => false |}.

Definition sample_agent : HierarchicalAgent :=
  new_agent false 25
    (Some [ {[ "go_to_url" := {[ "url" := "https://example.org" ]} ]} ])
    (Float "60.0") None.

(* ===================================================================== *)
(** ** save_mind2web_trace                                               *)
(* ===================================================================== *)

(** The value under ["model_output"] of a dumped step: a string, or a dict
    of which the function reads the entries ["text"] and ["content"] and,
    when both are missing, [str(mo)] (kept as [repr]). *)
Inductive ModelOutput : Type :=
  | MoStr (s : string)
  | MoDict (text content : option string) (repr : string).

(** [mo if isinstance(mo, str) else mo.get("text", mo.get("content", str(mo)))] *)
Definition output_text (mo : ModelOutput) : string :=
  match mo with
  | MoStr s => s
  | MoDict text content repr => default (default repr content) text
  end.

(** A step dict as the function reads it:
    [step.get("state", {}).get("screenshot", "")] (the empty string also
    stands for a missing or [None] screenshot, which [if shot] treats
    alike), [step.get("model_output")] and [step.get("result", [])]. *)
Record HistoryStep : Type := mkHistoryStep {
  hs_screenshot : string;
  hs_model_output : option ModelOutput;
  hs_result : list StepResult;
}.

(** The dict [data]: the keys ["history"] and ["subtask_history"] may be
    missing. *)
Record TraceData : Type := mkTraceData {
  td_history : option (list HistoryStep);
  td_subtask_history : option (list SubtaskStatus);
}.

(** What the file system does with a screenshot: whether [os.path.exists]
    holds of it, whether hard-linking it to the numbered file goes through,
    and whether it decodes as base64 and can be written. *)
Record FileSystem : Type := mkFileSystem {
  path_exists : string -> bool;
  link_ok : string -> nat -> bool;
  decode_ok : string -> nat -> bool;
}.

Definition trajectory_path (i : nat) : string :=
  "trajectory/" +:+ pretty i +:+ ".png".

(** The [try] block on the screenshot of step [i]: the relative path of
    the stored image, or [None] when storing raised (which is ignored). *)
Definition store_screenshot (fs : FileSystem) (i : nat) (shot : string)
    : option string :=
  if path_exists fs shot then
    if link_ok fs shot i then Some (trajectory_path i) else None
  else
    if decode_ok fs shot i then Some (trajectory_path i) else None.

(** [r.get("error") or "<done>"] when [r.get("is_done") or r.get("error")]. *)
Definition result_response (r : StepResult) : option string :=
  match error_truthy (step_error r) with
  | Some err => Some err
  | None => if is_done r then Some "<done>" else None
  end.

(** The inner loop [for r in step.get("result", [])]. *)
Fixpoint scan_results (rs : list StepResult) (final_response : option string)
    : option string :=
  match rs with
  | [] => final_response
  | r :: rs' =>
      scan_results rs' match result_response r with
                       | Some resp => Some resp
                       | None => final_response
                       end
  end.

(** The lists and the response the loop over the steps builds up. *)
Record Collected : Type := mkCollected {
  screenshot_paths : list string;
  action_history : list string;
  thoughts : list string;
  final_response : option string;
}.

(** The path recorded for step [i]: none when the step has no screenshot
    ([if shot]) or when storing it failed. *)
Definition stored_path (fs : FileSystem) (i : nat) (step : HistoryStep)
    : option string :=
  match hs_screenshot step with
  | EmptyString => None
  | shot => store_screenshot fs i shot
  end.

(** The loop [for i, step in enumerate(hist)], from step number [i] on. *)
Fixpoint scan_steps (fs : FileSystem) (i : nat) (hist : list HistoryStep)
    (acc : Collected) : Collected :=
  match hist with
  | [] => acc
  | step :: hist' =>
      let paths :=
        match stored_path fs i step with
        | Some p => screenshot_paths acc ++ [p]
        | None => screenshot_paths acc
        end in
      let texts :=
        match hs_model_output step with
        | Some mo => [output_text mo]
        | None => []
        end in
      scan_steps fs (S i) hist'
        {| screenshot_paths := paths;
           action_history := action_history acc ++ texts;
           thoughts := thoughts acc ++ texts;
           final_response := scan_results (hs_result step) (final_response acc) |}
  end.

(** [sep.join(l)] *)
Fixpoint str_join (sep : string) (l : list string) : string :=
  match l with
  | [] => ""
  | [s] => s
  | s :: rest => s +:+ sep +:+ str_join sep rest
  end.

(** The dict written to [result.json]. *)
Record ResultJson : Type := mkResultJson {
  rj_task : string;
  rj_action_history : list string;
  rj_thoughts : option string;
  rj_final_result_response : option string;
  rj_input_image_paths : list string;
  rj_subtask_history : option (list SubtaskStatus);
}.

Definition save_mind2web_trace (fs : FileSystem) (data : TraceData)
    (task_desc : string) (hierarchical : bool) : ResultJson :=
  let hist := default [] (td_history data) in
  let acc := scan_steps fs 0 hist
               {| screenshot_paths := []; action_history := [];
                  thoughts := []; final_response := None |} in
  {| rj_task := task_desc;
     rj_action_history := action_history acc;
     rj_thoughts :=
       match thoughts acc with
       | [] => None
       | ts => Some (str_join (nl +:+ "---" +:+ nl) ts)
       end;
     rj_final_result_response := final_response acc;
     rj_input_image_paths := take 1 (screenshot_paths acc);
     rj_subtask_history :=
       if hierarchical then td_subtask_history data else None |}.

(** The dict [run] returns, as [save_mind2web_trace] reads it. *)
Definition dump_step (s : Step) : HistoryStep :=
  {| hs_screenshot := screenshot s;
     hs_model_output := MoStr <$> model_output s;
     hs_result := step_result s |}.

Definition trace_data (t : Trace) : TraceData :=
  {| td_history := Some (dump_step <$> history t);
     td_subtask_history := Some (subtask_history t) |}.

(** The [result.json] that [run_task] leaves in hierarchical mode, if the
    exception of the run does not pass through it. *)
Definition task_result_json (fs : FileSystem) (env : Env)
    (confirmed_task website : string) : option ResultJson :=
  match run_task env confirmed_task website with
  | SavedTrace t =>
      Some (save_mind2web_trace fs (trace_data t) confirmed_task true)
  | SavedError r =>
      Some {| rj_task := er_task r;
              rj_action_history := er_action_history r;
              rj_thoughts := er_thoughts r;
              rj_final_result_response := Some (er_final_result_response r);
              rj_input_image_paths := er_input_image_paths r;
              rj_subtask_history := None |}
  | Propagated _ => None
  end.

(* ===================================================================== *)
(** ** main: which tasks are run                                         *)
(* ===================================================================== *)

(** A row of the dataset. *)
Record Row : Type := mkRow {
  row_task_id : string;
  row_level : string;
  row_confirmed_task : string;
  row_website : string;
}.

(** [[r for r in TASKS if r['level'] == level]] *)
Definition level_rows (level : string) (tasks : list Row) : list Row :=
  filter (fun r => row_level r = level) tasks.

(** The position of the first row with the given id, 0 when there is none
    or when [--start_id] is not given (or empty). *)
Definition start_index (start_id : option string) (rows : list Row) : nat :=
  match start_id with
  | Some (String c s) =>
      match list_find (fun r => row_task_id r = String c s) rows with
      | Some (i, _) => i
      | None => 0                                   (* StopIteration *)
      end
  | _ => 0
  end.

(** [rows[start_index:]] *)
Definition selected_rows (start_id : option string) (level : string)
    (tasks : list Row) : list Row :=
  let rows := level_rows level tasks in
  drop (start_index start_id rows) rows.

(** The directory of a row below the output directory, [level/task_id];
    task ids are plain names, so two directories are the same only if
    their paths are, and none lies inside another. *)
Definition task_dir (row : Row) : string :=
  row_level row +:+ "/" +:+ row_task_id row.

(** The loop [for row in rows] in hierarchical mode.  [outputs] is the set
    of task directories that exist and are not empty; [world] gives the
    environment the run of a row meets.  A row whose directory has output
    is skipped; [run_task] leaves its [result.json] in the directory unless
    an exception passes through it, which ends [main].  The third component
    lists the rows [run_task] was called on. *)
Fixpoint run_rows (world : Row -> Env) (rows : list Row) (outputs : gset string)
    : Result unit * gset string * list Row :=
  match rows with
  | [] => (Ok tt, outputs, [])
  | row :: rest =>
      if bool_decide (task_dir row ∈ outputs) then
        run_rows world rest outputs
      else
        match run_task (world row) (row_confirmed_task row) (row_website row) with
        | Propagated e => (Raise e, outputs, [row])
        | _ =>
            let '(r, outputs', ran) :=
              run_rows world rest ({[ task_dir row ]} ∪ outputs) in
            (r, outputs', row :: ran)
        end
  end.

(** [main] with [--hierarchical]: [levels = ['medium']]. *)
Definition main (world : Row -> Env) (tasks : list Row)
    (start_id : option string) (outputs : gset string)
    : Result unit * gset string * list Row :=
  run_rows world (selected_rows start_id "medium" tasks) outputs.

(** The pages the handoffs returned, each with the number of its subtask. *)
Definition handoffs (evs : list Event) : list (nat * option Page) :=
  omap (fun ev => match ev with
                  | EvKeepLastPage idx pg => Some (idx, pg)
                  | _ => None
                  end) evs.

(** Whether a string consists of whitespace only. *)
Fixpoint all_whitespace (s : string) : bool :=
  match s with
  | EmptyString => true
  | String c s' => is_whitespace c && all_whitespace s'
  end.

(** A world in which planning is down for every row. *)
Definition planner_down_world (row : Row) : Env := planner_down.

(** The run is cancelled while subtask 2 executes. *)
Definition second_cancelled (idx : nat) : Result SubHistory :=
  if (idx =? 2)%nat then Raise CancelledError else Ok (one_step "s1").

(* ===================================================================== *)
(** ** Proof automation                                                  *)
(* ===================================================================== *)

(** Normal form of the position [idx - 1] of the current status. *)
Ltac norm_index := rewrite ?Nat.sub_succ, ?Nat.sub_0_r in *.

(** Case analysis on the membership [H] of an event in a list that is
    given, up to a tail, by its elements. *)
Ltac elem_cases H :=
  repeat first
    [ apply elem_of_nil in H; contradiction
    | discriminate H
    | apply elem_of_app in H as [H|H]
    | apply elem_of_cons in H as [H|H] ].

(* ===================================================================== *)
(** ** The tab handoff                                                   *)
(* ===================================================================== *)

Section Handoff.
Variable vanished : Page -> bool.

Lemma close_earlier_never_raises ps ctx :
  exists skipped,
    close_earlier vanished ps ctx = (Ok tt, closed_all ps ctx, skipped).
Proof.
  revert ctx. induction ps as [|p ps IH]; intros ctx; simpl.
  - by exists [].
  - unfold close. destruct (vanished p); simpl.
    + destruct (IH (<[p:=TabClosed]> ctx)) as [sk ->]. by exists (p :: sk).
    + apply IH.
Qed.

Lemma closed_all_length ps ctx : length (closed_all ps ctx) = length ctx.
Proof.
  revert ctx. induction ps as [|p ps IH]; intros ctx; simpl; [done|].
  by rewrite IH, length_insert.
Qed.

Lemma is_closed_insert ctx p q :
  is_closed (<[p := TabClosed]> ctx) q = false <->
  is_closed ctx q = false /\ q <> p.
Proof.
  unfold is_closed. destruct (decide (p = q)) as [->|Hne].
  - destruct (decide (q < length ctx)) as [Hlt|Hge].
    + rewrite list_lookup_insert_eq by done. intuition congruence.
    + rewrite list_insert_ge by lia.
      rewrite (lookup_ge_None_2 ctx q) by lia. intuition congruence.
  - rewrite list_lookup_insert_ne by done. intuition congruence.
Qed.

Lemma is_closed_closed_all ps ctx q :
  is_closed (closed_all ps ctx) q = false <->
  is_closed ctx q = false /\ q ∉ ps.
Proof.
  revert ctx. induction ps as [|p ps IH]; intros ctx; simpl.
  - split; [intros ?; split; [done|apply not_elem_of_nil] | tauto].
  - rewrite IH, is_closed_insert, not_elem_of_cons. tauto.
Qed.

Lemma open_pages_closed_all ps ctx :
  open_pages (closed_all ps ctx) = filter (fun q => q ∉ ps) (open_pages ctx).
Proof.
  unfold open_pages, context_pages. rewrite closed_all_length.
  rewrite list_filter_filter. apply list_filter_iff.
  intros q. rewrite is_closed_closed_all. tauto.
Qed.

Lemma filter_members_out (l : list Page) : filter (fun q => q ∉ l) l = [].
Proof.
  assert (forall k, (forall x, x ∈ k -> x ∈ l) -> filter (fun q => q ∉ l) k = [])
    as Hgen.
  { induction k as [|x k IH]; intros Hsub; [done|].
    rewrite filter_cons_False.
    - apply IH. intros y Hy. apply Hsub. by right.
    - intros Hx. apply Hx, Hsub. by left. }
  by apply Hgen.
Qed.

Lemma open_pages_NoDup ctx : NoDup (open_pages ctx).
Proof. apply NoDup_filter, NoDup_seq. Qed.

(** The open pages come in creation order, so the last is the newest. *)
Lemma filter_seq_last_max (P : nat -> Prop) `{!forall x, Decision (P x)} n p q :
  last (filter P (seq 0 n)) = Some q -> p ∈ filter P (seq 0 n) -> p <= q.
Proof.
  induction n as [|n IH]; [by intros _ ?%elem_of_nil|].
  rewrite seq_S, filter_app. simpl.
  rewrite filter_cons, filter_nil. destruct (decide (P n)).
  - rewrite last_snoc. intros [= <-] [Hin|Hin%list_elem_of_singleton]%elem_of_app; [|lia].
    apply list_elem_of_filter in Hin as [_ Hin]. apply elem_of_seq in Hin. lia.
  - rewrite app_nil_r. apply IH.
Qed.

Lemma keep_last_page_some ctx lastp :
  last (open_pages ctx) = Some lastp ->
  _keep_last_page vanished ctx =
    (Ok (Some lastp), closed_all (removelast (open_pages ctx)) ctx)
  /\ open_pages (closed_all (removelast (open_pages ctx)) ctx) = [lastp].
Proof.
  intros Hlast. unfold _keep_last_page. rewrite Hlast.
  destruct (close_earlier_never_raises (removelast (open_pages ctx)) ctx)
    as [sk ->].
  split; [done|].
  rewrite open_pages_closed_all.
  pose proof (open_pages_NoDup ctx) as Hnd.
  apply last_Some in Hlast as [l Hl]. rewrite Hl in *.
  rewrite removelast_last, filter_app.
  apply NoDup_app in Hnd as (_ & Hdisj & _).
  rewrite filter_members_out, filter_cons_True; [done|].
  intros Hin. apply (Hdisj _ Hin). by left.
Qed.

Lemma keep_last_page_never_raises ctx :
  exists page' ctx', _keep_last_page vanished ctx = (Ok page', ctx').
Proof.
  destruct (last (open_pages ctx)) as [lastp|] eqn:Hlast.
  - destruct (keep_last_page_some ctx lastp Hlast) as [-> _]. eauto.
  - unfold _keep_last_page. rewrite Hlast. eauto.
Qed.
End Handoff.

(** C4. Handoff: with M >= 1 tabs not yet closed, [_keep_last_page] returns
    the most recently opened of them as the active page and leaves it as
    the only open tab; with M = 0 it returns no page, touches nothing and
    does not raise.  Tabs whose [close] fails because they vanished are
    skipped: the result is the same for every [vanished]. *)
Theorem keep_last_page_handoff (vanished : Page -> bool) (ctx : BrowserContext) (M : nat) :
  length (open_pages ctx) = M ->
  (1 <= M ->
     exists lastp ctx',
       _keep_last_page vanished ctx = (Ok (Some lastp), ctx')
       /\ last (open_pages ctx) = Some lastp
       /\ (forall p, p ∈ open_pages ctx -> p <= lastp)
       /\ open_pages ctx' = [lastp]
       /\ length (open_pages ctx') = 1
       /\ (forall p, p ∈ open_pages ctx -> p <> lastp -> is_closed ctx' p = true))
  /\ (M = 0 -> _keep_last_page vanished ctx = (Ok None, ctx)).
Proof.
  intros HM. split.
  - intros Hpos.
    destruct (last (open_pages ctx)) as [lastp|] eqn:Hlast.
    2: { apply last_None in Hlast. rewrite Hlast in HM. simpl in HM. lia. }
    destruct (keep_last_page_some vanished ctx lastp Hlast) as [Hrun Hopen].
    eexists _, _. split; [exact Hrun|]. split; [done|]. split.
    { intros p Hp. eapply filter_seq_last_max; [exact Hlast | exact Hp]. }
    split; [done|]. split; [by rewrite Hopen|].
    intros p Hp Hne.
    destruct (is_closed _ p) eqn:Hc; [done|]. exfalso.
    assert (p ∈ open_pages (closed_all (removelast (open_pages ctx)) ctx)) as Hin.
    { apply list_elem_of_filter. split; [done|].
      unfold context_pages. rewrite closed_all_length.
      apply list_elem_of_filter in Hp as [_ Hp]. done. }
    rewrite Hopen in Hin. apply list_elem_of_singleton in Hin. done.
  - intros ->. unfold _keep_last_page.
    apply nil_length_inv in HM. by rewrite HM.
Qed.

Lemma keep_last_page_handoff_witness :
  let ctx := [TabOpen; TabClosed; TabOpen; TabOpen] in
  exists lastp ctx',
    _keep_last_page (fun p => (p =? 0)%nat) ctx = (Ok (Some lastp), ctx')
    /\ last (open_pages ctx) = Some lastp
    /\ (forall p, p ∈ open_pages ctx -> p <= lastp)
    /\ open_pages ctx' = [lastp]
    /\ length (open_pages ctx') = 1
    /\ (forall p, p ∈ open_pages ctx -> p <> lastp -> is_closed ctx' p = true).
Proof.
  intros ctx.
  apply (proj1 (keep_last_page_handoff (fun p => (p =? 0)%nat) ctx 3 eq_refl)).
  lia.
Defined.

(* ===================================================================== *)
(** ** Reasoning about the subtask loop                                  *)
(* ===================================================================== *)

Section Loop.
Variables (env : Env) (self : HierarchicalAgent) (task : string).

(** Induction along the iterations of the loop.  The handoff never
    raises, so an iteration ends in one of three ways: the subtask
    completes and the loop goes on, the status list is too short
    (IndexError), or the executor call raises. *)
Lemma run_subtasks_cases
    (P : nat -> list string -> Frame -> Result unit * Frame * list Event -> Prop) :
  (forall idx f, P idx [] f (Ok tt, f, [])) ->
  (forall idx subtask rest f sub_history ctx1 sts page' ctx2 r f' later,
      agent_run env idx
        (build_params self task idx subtask (page f) (statuses f))
        (max_actions_per_subtask self) (subtask_timeout self)
        (browser_context f) = (Ok sub_history, ctx1) ->
      mutate_at (idx - 1) mark_done (statuses f) = Some sts ->
      _keep_last_page (vanished env) ctx1 = (Ok page', ctx2) ->
      run_subtasks env self task (S idx) rest
        (after_subtask f sts sub_history page' ctx2) = (r, f', later) ->
      P (S idx) rest (after_subtask f sts sub_history page' ctx2) (r, f', later) ->
      P idx (subtask :: rest) f
        (r, f',
         (iteration_start self task idx subtask f
            ++ [EvReturned idx sub_history; EvMarkDone idx sts])
         ++ [EvKeepLastPage idx page'] ++ later)) ->
  (forall idx subtask rest f sub_history ctx1,
      agent_run env idx
        (build_params self task idx subtask (page f) (statuses f))
        (max_actions_per_subtask self) (subtask_timeout self)
        (browser_context f) = (Ok sub_history, ctx1) ->
      mutate_at (idx - 1) mark_done (statuses f) = None ->
      P idx (subtask :: rest) f
        (Raise (IndexError "list index out of range"),
         after_executor f ctx1,
         iteration_start self task idx subtask f ++ [EvReturned idx sub_history])) ->
  (forall idx subtask rest f e ctx1 r f' evs,
      agent_run env idx
        (build_params self task idx subtask (page f) (statuses f))
        (max_actions_per_subtask self) (subtask_timeout self)
        (browser_context f) = (Raise e, ctx1) ->
      except_clauses self idx e (after_executor f ctx1) = (r, f', evs) ->
      P idx (subtask :: rest) f
        (r, f', iteration_start self task idx subtask f ++ [EvRaised idx e] ++ evs)) ->
  forall idx rest f, P idx rest f (run_subtasks env self task idx rest f).
Proof.
  intros Hnil Hnext Hindex Hraise idx rest.
  revert idx. induction rest as [|subtask rest IH]; intros idx f; simpl.
  - apply Hnil.
  - destruct (agent_run _ _ _ _ _ _) as [[sub_history|e] ctx1] eqn:Hrun.
    + destruct (mutate_at _ _ _) as [sts|] eqn:Hmut.
      * destruct (keep_last_page_never_raises (vanished env) ctx1)
          as (page' & ctx2 & Hkeep).
        rewrite Hkeep.
        destruct (run_subtasks _ _ _ _ _ _) as [[r f'] later] eqn:Hrest.
        eapply Hnext; eauto. rewrite <- Hrest. apply IH.
      * by eapply Hindex.
    + destruct (except_clauses _ _ _ _) as [[r f'] evs] eqn:Hexc.
      by eapply Hraise.
Qed.
End Loop.

Section LoopFacts.
Variables (env : Env) (self : HierarchicalAgent) (task : string).

Lemma mutate_at_current pre rest st m :
  mutate_at (length pre) m ((done_status <$> pre) ++ st :: rest)
  = Some ((done_status <$> pre) ++ m st :: rest).
Proof.
  unfold mutate_at.
  rewrite list_lookup_middle by (by rewrite length_fmap).
  rewrite insert_app_r_alt by (rewrite length_fmap; lia).
  rewrite length_fmap, Nat.sub_diag. done.
Qed.

Lemma statuses_at_next pre subtask rest :
  (done_status <$> pre) ++ done_status subtask :: (new_status <$> rest)
  = statuses_at (pre ++ [subtask]) rest.
Proof. unfold statuses_at. by rewrite fmap_app, <- app_assoc. Qed.

Lemma code_invariant_current pre st rest :
  code_invariant (S (length pre))
    ((done_status <$> pre) ++ st :: (new_status <$> rest)).
Proof.
  intros j st' Hj. split.
  - intros Hlt. rewrite lookup_app_l in Hj by (rewrite length_fmap; lia).
    apply list_lookup_fmap_Some in Hj as (s & -> & _). done.
  - intros Hgt.
    rewrite lookup_app_r in Hj by (rewrite length_fmap; lia).
    rewrite length_fmap in Hj.
    destruct (j - length pre) as [|n] eqn:Hn; [lia|]. simpl in Hj.
    apply list_lookup_fmap_Some in Hj as (s & -> & _). done.
Qed.

Lemma except_clauses_message idx e f :
  except_clauses self idx e f =
    match failure_message self e with
    | Some m => fail_subtask idx m e f
    | None => (Raise e, f, [])
    end.
Proof. by destruct e. Qed.

Lemma snapshots_app evs1 evs2 :
  snapshots (evs1 ++ evs2) = snapshots evs1 ++ snapshots evs2.
Proof. apply omap_app. Qed.

Lemma invocations_app evs1 evs2 :
  invocations (evs1 ++ evs2) = invocations evs1 ++ invocations evs2.
Proof. apply omap_app. Qed.

Lemma returned_histories_app evs1 evs2 :
  returned_histories (evs1 ++ evs2)
  = returned_histories evs1 ++ returned_histories evs2.
Proof. apply omap_app. Qed.

Lemma schedule_app evs1 evs2 :
  schedule (evs1 ++ evs2) = schedule evs1 ++ schedule evs2.
Proof. apply omap_app. Qed.

(** What the except clauses do to the current subtask's status. *)
Lemma except_clauses_current idx e pre subtask rest f ctx1 r f' evs :
  idx = S (length pre) ->
  statuses f = statuses_at pre (subtask :: rest) ->
  except_clauses self idx e (after_executor f ctx1) = (r, f', evs) ->
  r = Raise e
  /\ combined_history f' = combined_history f
  /\ statuses f' =
       (done_status <$> pre) ++
       from_option (fun m => mark_error m (new_status subtask))
                   (new_status subtask) (failure_message self e)
       :: (new_status <$> rest)
  /\ evs = from_option (fun m => [EvMarkError idx m (statuses f')]) []
                       (failure_message self e).
Proof.
  intros -> Hst. rewrite except_clauses_message.
  destruct (failure_message self e) as [m|]; simpl.
  - unfold fail_subtask. simpl. rewrite Hst. unfold statuses_at. simpl.
    norm_index. rewrite mutate_at_current. by intros [= <- <- <-].
  - intros [= <- <- <-]. simpl. by rewrite Hst.
Qed.

End LoopFacts.

Section LoopEvents.
Variables (env : Env) (self : HierarchicalAgent) (task : string).

Lemma except_clauses_raises idx e f :
  exists e', (except_clauses self idx e f).1.1 = Raise e'.
Proof.
  rewrite except_clauses_message.
  destruct (failure_message self e); simpl; [|eauto].
  unfold fail_subtask. destruct (mutate_at _ _ _); simpl; eauto.
Qed.

Lemma except_clauses_only_marks idx e f :
  Forall (fun ev => exists m sts, ev = EvMarkError idx m sts)
         (except_clauses self idx e f).2.
Proof.
  rewrite except_clauses_message.
  destruct (failure_message self e); simpl; [|constructor].
  unfold fail_subtask. destruct (mutate_at _ _ _); simpl; repeat constructor.
  eauto.
Qed.

(** Every event of the loop belongs to a subtask not before the one the
    loop was entered at; in particular none is a teardown call. *)
Lemma run_subtasks_event_idx idx rest f :
  Forall (fun ev => exists i, event_idx ev = Some i /\ idx <= i)
         (run_subtasks env self task idx rest f).2.
Proof.
  apply (run_subtasks_cases env self task
    (fun idx rest f res =>
       Forall (fun ev => exists i, event_idx ev = Some i /\ idx <= i) res.2));
    clear idx rest f.
  - intros. constructor.
  - intros idx subtask rest f sh ctx1 sts page' ctx2 r f' later _ _ _ _ IH.
    simpl in *. repeat (constructor; [by eauto|]).
    eapply Forall_impl; [exact IH|]. intros ev (i & ? & ?). exists i. split; [done|lia].
  - intros. simpl. repeat (constructor; [by eauto|]). constructor.
  - intros idx subtask rest f e ctx1 r f' evs _ Hexc. simpl.
    repeat (constructor; [by eauto|]).
    pose proof (except_clauses_only_marks idx e (after_executor f ctx1)) as Hm.
    rewrite Hexc in Hm. simpl in Hm.
    eapply Forall_impl; [exact Hm|]. intros ev (m & sts & ->). simpl. eauto.
Qed.

Lemma returned_histories_completed idx subtask f sh sts page' later :
  returned_histories ((iteration_start self task idx subtask f
                         ++ [EvReturned idx sh; EvMarkDone idx sts])
                      ++ [EvKeepLastPage idx page'] ++ later)
  = (idx, sh) :: returned_histories later.
Proof. reflexivity. Qed.

(** On the success path the accumulated history grows by exactly the
    histories the executor returned, one per subtask and in order. *)
Lemma run_subtasks_history idx rest f :
  (run_subtasks env self task idx rest f).1.1 = Ok tt ->
  combined_history (run_subtasks env self task idx rest f).1.2
  = combined_history f
    ++ concat ((fun x => sub_dump_history x.2) <$>
                 returned_histories (run_subtasks env self task idx rest f).2)
  /\ (returned_histories (run_subtasks env self task idx rest f).2).*1
     = seq idx (length rest).
Proof.
  apply (run_subtasks_cases env self task
    (fun idx rest f res =>
       res.1.1 = Ok tt ->
       combined_history res.1.2
       = combined_history f
         ++ concat ((fun x => sub_dump_history x.2) <$> returned_histories res.2)
       /\ (returned_histories res.2).*1 = seq idx (length rest)));
    clear idx rest f.
  - intros. simpl. by rewrite app_nil_r.
  - intros idx subtask rest f sh ctx1 sts page' ctx2 r f' later _ _ _ _ IH Hok.
    cbn [fst snd] in *. destruct (IH Hok) as [-> IH2].
    rewrite returned_histories_completed, !fmap_cons. cbn [concat fst snd].
    split; [|by rewrite IH2].
    unfold after_subtask. cbn [combined_history]. by rewrite <- app_assoc.
  - intros. discriminate.
  - intros idx subtask rest f e ctx1 r f' evs _ Hexc Hok. simpl in Hok.
    destruct (except_clauses_raises idx e (after_executor f ctx1)) as [e' He'].
    rewrite Hexc in He'. simpl in He'. congruence.
Qed.

Lemma build_params_task idx subtask pg sts :
  build_params self task idx subtask pg sts !! "task" = Some (VStr subtask).
Proof.
  unfold build_params.
  rewrite lookup_insert_ne by done.
  destruct (bool_decide _); [|rewrite lookup_insert_ne by done];
    (destruct (_ && _); [rewrite lookup_insert_ne by done|]);
    by rewrite !lookup_insert_ne, lookup_insert_eq by done.
Qed.

Lemma build_params_initial_actions idx subtask pg sts :
  build_params self task idx subtask pg sts !! "initial_actions"
  = if (idx =? 1)%nat && actions_truthy (initial_actions self)
    then Some (VActions (default [] (initial_actions self)))
    else None.
Proof.
  unfold build_params.
  rewrite lookup_insert_ne by done.
  destruct (bool_decide _); [|rewrite lookup_insert_ne by done];
    (destruct (_ && _); [by rewrite lookup_insert_eq|]);
    by rewrite !lookup_insert_ne, lookup_empty by done.
Qed.

Lemma enumerate_cons {A} start (x : A) l :
  enumerate start (x :: l) = (start, x) :: enumerate (S start) l.
Proof. done. Qed.

Lemma schedule_completed idx subtask f sh sts page' later :
  schedule ((iteration_start self task idx subtask f
               ++ [EvReturned idx sh; EvMarkDone idx sts])
            ++ [EvKeepLastPage idx page'] ++ later)
  = [Invoked idx (build_params self task idx subtask (page f) (statuses f)
                    !! "task");
     Returned idx; Terminal idx; HandedOff idx] ++ schedule later.
Proof. reflexivity. Qed.

Lemma invocations_completed idx subtask f sh sts page' later :
  invocations ((iteration_start self task idx subtask f
                  ++ [EvReturned idx sh; EvMarkDone idx sts])
               ++ [EvKeepLastPage idx page'] ++ later)
  = (idx, build_params self task idx subtask (page f) (statuses f))
      :: invocations later.
Proof. reflexivity. Qed.

(** On the success path each subtask is invoked, returns, is marked done
    and handed off, one subtask after the other in checklist order. *)
Lemma run_subtasks_schedule idx rest f :
  (run_subtasks env self task idx rest f).1.1 = Ok tt ->
  schedule (run_subtasks env self task idx rest f).2
  = concat (completed_steps <$> enumerate idx rest).
Proof.
  apply (run_subtasks_cases env self task
    (fun idx rest f res =>
       res.1.1 = Ok tt ->
       schedule res.2 = concat (completed_steps <$> enumerate idx rest)));
    clear idx rest f.
  - done.
  - intros idx subtask rest f sh ctx1 sts page' ctx2 r f' later _ _ _ _ IH Hok.
    rewrite enumerate_cons, fmap_cons. cbn [concat completed_steps fst snd].
    rewrite <- (IH Hok). cbn [snd].
    by rewrite schedule_completed, build_params_task.
  - intros. discriminate.
  - intros idx subtask rest f e ctx1 r f' evs _ Hexc Hok. simpl in Hok.
    destruct (except_clauses_raises idx e (after_executor f ctx1)) as [e' He'].
    rewrite Hexc in He'. simpl in He'. congruence.
Qed.

(** Each executor invocation gets the keyword dict of its own subtask
    number, and the numbers go up by one from the first on. *)
Lemma run_subtasks_invocations idx rest f :
  Forall (fun x => exists subtask pg sts,
                     x.2 = build_params self task x.1 subtask pg sts)
         (invocations (run_subtasks env self task idx rest f).2)
  /\ (invocations (run_subtasks env self task idx rest f).2).*1
     = seq idx (length (invocations (run_subtasks env self task idx rest f).2)).
Proof.
  apply (run_subtasks_cases env self task
    (fun idx rest f res =>
       Forall (fun x => exists subtask pg sts,
                     x.2 = build_params self task x.1 subtask pg sts)
         (invocations res.2)
       /\ (invocations res.2).*1 = seq idx (length (invocations res.2))));
    clear idx rest f.
  - intros. split; [constructor|done].
  - intros idx subtask rest f sh ctx1 sts page' ctx2 r f' later _ _ _ _ [IH1 IH2].
    cbn [snd] in *.
    rewrite invocations_completed.
    split; [constructor; [simpl; eauto | exact IH1]|].
    rewrite fmap_cons. cbn [length seq fst]. f_equal. exact IH2.
  - intros. simpl. split; [|done]. repeat constructor. simpl. eauto.
  - intros idx subtask rest f e ctx1 r f' evs _ Hexc. cbn [snd].
    pose proof (except_clauses_only_marks idx e (after_executor f ctx1)) as Hm.
    rewrite Hexc in Hm. cbn [snd] in Hm.
    assert (invocations evs = []) as Hnone.
    { clear Hexc. induction Hm as [|ev evs (m & sts & ->) _ IH]; [done|]. exact IH. }
    rewrite !invocations_app, Hnone.
    change (invocations (iteration_start self task idx subtask f)) with
      [(idx, build_params self task idx subtask (page f) (statuses f))].
    split; [|done]. repeat constructor. simpl. eauto.
Qed.
End LoopEvents.

Section LoopStatuses.
Variables (env : Env) (self : HierarchicalAgent) (task : string).

(** A successful loop leaves every status done. *)
Lemma run_subtasks_all_done idx rest f :
  forall pre, idx = S (length pre) -> statuses f = statuses_at pre rest ->
  (run_subtasks env self task idx rest f).1.1 = Ok tt ->
  statuses (run_subtasks env self task idx rest f).1.2
  = done_status <$> (pre ++ rest).
Proof.
  apply (run_subtasks_cases env self task
    (fun idx rest f res => forall pre, idx = S (length pre) ->
       statuses f = statuses_at pre rest -> res.1.1 = Ok tt ->
       statuses res.1.2 = done_status <$> (pre ++ rest))); clear.
  - intros idx f pre _ Hst _. simpl. rewrite Hst. unfold statuses_at.
    by rewrite !app_nil_r.
  - intros idx subtask rest f sh ctx1 sts page' ctx2 r f' later
      _ Hmut _ _ IH pre -> Hst Hok. cbn [fst snd] in *.
    rewrite Hst in Hmut. unfold statuses_at in Hmut.
    rewrite fmap_cons in Hmut. norm_index.
    rewrite mutate_at_current in Hmut. injection Hmut as <-.
    rewrite (IH (pre ++ [subtask])); [by rewrite <- app_assoc| |apply statuses_at_next|done].
    rewrite length_app. simpl. lia.
  - intros. discriminate.
  - intros idx subtask rest f e ctx1 r f' evs _ Hexc pre _ _ Hok. simpl in Hok.
    destruct (except_clauses_raises self idx e (after_executor f ctx1)) as [e' He'].
    rewrite Hexc in He'. simpl in He'. congruence.
Qed.

(** Fail-fast: once the executor call of subtask [i] has raised [e], the
    loop ends with [e], the status of subtask [i] is what the except
    clauses made of it, and no later subtask was invoked. *)
Lemma run_subtasks_raised idx rest f :
  forall pre, idx = S (length pre) -> statuses f = statuses_at pre rest ->
  forall i e, EvRaised i e ∈ (run_subtasks env self task idx rest f).2 ->
    (run_subtasks env self task idx rest f).1.1 = Raise e
    /\ (exists subtask,
          (pre ++ rest) !! (i - 1) = Some subtask
          /\ statuses (run_subtasks env self task idx rest f).1.2 !! (i - 1)
             = Some (status_after self e subtask))
    /\ (forall x, x ∈ invocations (run_subtasks env self task idx rest f).2 ->
          x.1 <= i).
Proof.
  apply (run_subtasks_cases env self task
    (fun idx rest f res => forall pre, idx = S (length pre) ->
       statuses f = statuses_at pre rest ->
       forall i e, EvRaised i e ∈ res.2 ->
         res.1.1 = Raise e
         /\ (exists subtask,
               (pre ++ rest) !! (i - 1) = Some subtask
               /\ statuses res.1.2 !! (i - 1) = Some (status_after self e subtask))
         /\ (forall x, x ∈ invocations res.2 -> x.1 <= i))); clear.
  - intros idx f pre _ _ i e Hin. cbn [snd] in Hin. by apply elem_of_nil in Hin.
  - intros idx subtask rest f sh ctx1 sts page' ctx2 r f' later
      _ Hmut _ Hrest IH pre -> Hst i e Hin. cbn [fst snd] in *.
    rewrite Hst in Hmut. unfold statuses_at in Hmut.
    rewrite fmap_cons in Hmut. norm_index.
    rewrite mutate_at_current in Hmut. injection Hmut as <-.
    assert (EvRaised i e ∈ later) as Hlater.
    { unfold iteration_start in Hin. by elem_cases Hin. }
    destruct (IH (pre ++ [subtask])) with (i := i) (e := e)
      as (Hr & (s & Hs & Hst') & Hinv);
      [rewrite length_app; simpl; lia | apply statuses_at_next | done |].
    split; [done|]. split.
    { exists s. by rewrite <- app_assoc in Hs. }
    intros x. rewrite invocations_completed.
    intros [->|Hx]%elem_of_cons; [|by apply Hinv]. simpl.
    pose proof (run_subtasks_event_idx env self task (S (S (length pre))) rest
                  (after_subtask f
                     ((done_status <$> pre) ++ mark_done (new_status subtask)
                        :: (new_status <$> rest)) sh page' ctx2)) as Hidx.
    rewrite Hrest in Hidx. cbn [snd] in Hidx.
    rewrite Forall_forall in Hidx.
    destruct (Hidx _ Hlater) as (i' & [= <-] & Hle). lia.
  - intros idx subtask rest f sh ctx1 _ Hmut pre -> Hst. exfalso.
    rewrite Hst in Hmut. unfold statuses_at in Hmut.
    rewrite fmap_cons in Hmut. norm_index.
    by rewrite mutate_at_current in Hmut.
  - intros idx subtask rest f e ctx1 r f' evs _ Hexc pre Hidx Hst i e0 Hin.
    cbn [fst snd] in *.
    pose proof (except_clauses_only_marks self idx e (after_executor f ctx1)) as Hm.
    rewrite Hexc in Hm. cbn [snd] in Hm. rewrite Forall_forall in Hm.
    assert (i = idx /\ e0 = e) as [-> ->].
    { unfold iteration_start in Hin. elem_cases Hin.
      - by injection Hin as -> ->.
      - destruct (Hm _ Hin) as (m & sts & [=]). }
    destruct (except_clauses_current self _ _ _ _ _ _ _ _ _ _ Hidx Hst Hexc)
      as (-> & _ & Hst' & _). subst idx.
    split; [done|]. split.
    + exists subtask. norm_index. split.
      * by apply list_lookup_middle.
      * rewrite Hst'. apply list_lookup_middle. by rewrite length_fmap.
    + intros x. rewrite !invocations_app.
      assert (invocations evs = []) as ->.
      { clear -Hm. induction evs as [|ev evs IH]; [done|].
        destruct (Hm ev) as (m & sts & ->); [by left|]. simpl.
        apply IH. intros ev' Hev'. apply Hm. by right. }
      intros Hx. unfold iteration_start in Hx. simpl in Hx.
      apply list_elem_of_singleton in Hx as ->. done.
Qed.
End LoopStatuses.

(* ===================================================================== *)
(** ** The whole run                                                     *)
(* ===================================================================== *)

Section Run.
Variables (env : Env) (self : HierarchicalAgent) (task website : string).

(** The loop runs on the agent object [(ensure_browser self).1]. *)

Lemma ensure_browser_keeps :
  initial_actions (ensure_browser self).1 = initial_actions self
  /\ subtask_timeout (ensure_browser self).1 = subtask_timeout self
  /\ sensitive_data (ensure_browser self).1 = sensitive_data self.
Proof. unfold ensure_browser. by destruct (context self). Qed.

Lemma ensure_browser_outside :
  Forall (fun ev => event_idx ev = None) (ensure_browser self).2.
Proof. unfold ensure_browser. destruct (context self); repeat constructor. Qed.

Lemma plan_outside :
  Forall (fun ev => event_idx ev = None) (plan env task website).2.
Proof.
  unfold plan. destruct (planner_chain _ _); [|repeat constructor].
  destruct (refine_chain _ _); repeat constructor.
Qed.

Lemma teardown_outside s : Forall (fun ev => event_idx ev = None) (teardown s).
Proof. unfold teardown. destruct (playwright s); repeat constructor. Qed.

(** A run whose planning fails stops there. *)
Lemma run_unplanned e evp :
  plan env task website = (Raise e, evp) ->
  run env self task website
  = {| returned := Raise e; self_after := (ensure_browser self).1; frame := None;
       events := (ensure_browser self).2 ++ evp |}.
Proof.
  intros Hplan. unfold run.
  destruct (ensure_browser self) as [s ev_init]. by rewrite Hplan.
Qed.

(** A run whose planning succeeds is the loop between the start of the
    session and the teardown, which runs again when the loop succeeded. *)
Lemma run_planned checklist evp :
  plan env task website = (Ok checklist, evp) ->
  exists r f ev_loop,
    run_subtasks env (ensure_browser self).1 task 1 checklist (initial_frame (ensure_browser self).1 checklist)
      = (r, f, ev_loop)
    /\ frame (run env self task website) = Some f
    /\ returned (run env self task website)
       = match r with
         | Ok _ => Ok {| history := combined_history f;
                         subtask_history := statuses f |}
         | Raise e => Raise e
         end
    /\ events (run env self task website)
       = ((ensure_browser self).2 ++ evp ++ [EvSessionStart]) ++ ev_loop
         ++ (teardown (ensure_browser self).1 ++ match r with
                               | Ok _ => teardown (ensure_browser self).1
                               | Raise _ => []
                               end).
Proof.
  intros Hplan. unfold run.
  destruct (ensure_browser self) as [s ev_init]. rewrite Hplan. cbn [fst snd].
  destruct (run_subtasks _ _ _ _ _ _) as [[r f] ev_loop].
  exists r, f, ev_loop. split; [done|].
  destruct r; cbn [frame returned events];
    rewrite <- ?app_assoc, ?app_nil_r; done.
Qed.

Lemma run_planned_outside checklist evp :
  plan env task website = (Ok checklist, evp) ->
  Forall (fun ev => event_idx ev = None)
         ((ensure_browser self).2 ++ evp ++ [EvSessionStart])
  /\ forall r : Result unit,
       Forall (fun ev => event_idx ev = None)
              (teardown (ensure_browser self).1 ++ match r with
                                 | Ok _ => teardown (ensure_browser self).1
                                 | Raise _ => []
                                 end).
Proof.
  intros Hplan. pose proof plan_outside as Hp. rewrite Hplan in Hp.
  split.
  - repeat apply Forall_app_2; try done; [apply ensure_browser_outside|].
    repeat constructor.
  - intros [|]; repeat apply Forall_app_2;
      try apply teardown_outside; constructor.
Qed.
End Run.

(** Events outside the loop do not show in the observations of the loop. *)
Lemma outside_invocations evs :
  Forall (fun ev => event_idx ev = None) evs -> invocations evs = [].
Proof. induction 1 as [|[] evs Hev _ IH]; try done; discriminate. Qed.

Lemma outside_returned_histories evs :
  Forall (fun ev => event_idx ev = None) evs -> returned_histories evs = [].
Proof. induction 1 as [|[] evs Hev _ IH]; try done; discriminate. Qed.

Lemma outside_schedule evs :
  Forall (fun ev => event_idx ev = None) evs -> schedule evs = [].
Proof. induction 1 as [|[] evs Hev _ IH]; try done; discriminate. Qed.

Lemma outside_not_raised evs i e :
  Forall (fun ev => event_idx ev = None) evs -> EvRaised i e ∉ evs.
Proof.
  intros Hout Hin. rewrite Forall_forall in Hout.
  by specialize (Hout _ Hin).
Qed.

Lemma inside_no_teardown evs idx :
  Forall (fun ev => exists i, event_idx ev = Some i /\ idx <= i) evs ->
  session_kills evs = 0 /\ playwright_stops evs = 0.
Proof.
  induction 1 as [|ev evs (i & Hi & _) _ IH]; [done|].
  unfold session_kills, playwright_stops in *. simpl.
  by destruct ev.
Qed.

Lemma session_kills_app evs1 evs2 :
  session_kills (evs1 ++ evs2) = session_kills evs1 + session_kills evs2.
Proof. unfold session_kills. by rewrite List.filter_app, length_app. Qed.


(* ===================================================================== *)
(** ** Teardown                                                          *)
(* ===================================================================== *)

Lemma before_loop_no_kill env self task website :
  session_kills ((ensure_browser self).2 ++ (plan env task website).2) = 0.
Proof.
  unfold ensure_browser, plan.
  destruct (context self), (planner_chain _ _); try done;
    destruct (refine_chain _ _); done.
Qed.

(** How often the session is killed, on each exit path: not at all when
    planning fails, once when the loop is left by an exception, twice when
    the loop completes. *)
Lemma run_session_kills env self task website :
  session_kills (events (run env self task website))
  = match (plan env task website).1, returned (run env self task website) with
    | Raise _, _ => 0
    | Ok _, Raise _ => 1
    | Ok _, Ok _ => 2
    end.
Proof.
  pose proof (before_loop_no_kill env self task website) as Hzero.
  destruct (plan env task website) as [[checklist|e] evp] eqn:Hplan;
    cbn [fst snd] in *.
  - destruct (run_planned env self task website checklist evp Hplan)
      as (r & f & ev_loop & Hloop & _ & -> & ->).
    pose proof (run_subtasks_event_idx env (ensure_browser self).1 task 1
                  checklist (initial_frame (ensure_browser self).1 checklist)) as Hin.
    rewrite Hloop in Hin. cbn [snd] in Hin.
    apply inside_no_teardown in Hin as [Hin _].
    assert (session_kills (teardown (ensure_browser self).1) = 1) as Hone.
    { unfold teardown. by destruct (playwright _). }
    rewrite session_kills_app in Hzero.
    rewrite !session_kills_app, Hin, Hone.
    change (session_kills [EvSessionStart]) with 0.
    destruct r; [rewrite Hone|change (session_kills []) with 0]; lia.
  - by rewrite (run_unplanned env self task website e evp Hplan).
Qed.

(** C1. The teardown does not run exactly once on every exit path.  When
    all subtasks complete, [session.kill] and [playwright.stop] run in the
    [finally] clause and once more after it; when planning fails, Playwright
    has been started and neither call runs. *)
Theorem teardown_not_once_on_every_path :
  (let out := run (sample_env (PyStr <$> sample_checklist) all_complete)
                  sample_agent "find the first X" "example.org" in
   (exists trace, returned out = Ok trace)
   /\ session_kills (events out) = 2
   /\ playwright_stops (events out) = 2)
  /\
  (let out := run planner_down sample_agent "find the first X" "example.org" in
   returned out = Raise (Exception "planning service unavailable")
   /\ head (events out) = Some EvInitBrowser
   /\ session_kills (events out) = 0
   /\ playwright_stops (events out) = 0).
Proof.
  split.
  - split; [eexists; vm_compute; reflexivity|]. split; vm_compute; reflexivity.
  - repeat split; vm_compute; reflexivity.
Qed.

(* ===================================================================== *)
(** ** Fail-fast subtasks                                                *)
(* ===================================================================== *)

(** C2, as the code has it.  If the executor call of subtask [i] ends
    with an exception [e], the run ends by raising [e] to the caller and no
    subtask after [i] is invoked.  What is recorded on the status of
    subtask [i], which is not done, goes by the class of [e]: "timed out
    after <D>s" for every [asyncio.TimeoutError], that of the deadline and
    one the executor raised itself, whatever its text; the text [str(e)]
    for any other [Exception]; nothing for an exception that is no
    [Exception] (a cancellation). *)
Theorem failed_subtask_aborts_run env self task website i e :
  EvRaised i e ∈ events (run env self task website) ->
  returned (run env self task website) = Raise e
  /\ (exists f checklist subtask,
        frame (run env self task website) = Some f
        /\ (plan env task website).1 = Ok checklist
        /\ checklist !! (i - 1) = Some subtask
        /\ statuses f !! (i - 1)
           = Some {| name := subtask; done := false;
                     error := match e with
                              | TimeoutError _ =>
                                  Some ("timed out after "
                                          +:+ str_float (subtask_timeout self)
                                          +:+ "s")
                              | _ =>
                                  if is_Exception e then Some (str_exc e)
                                  else None
                              end |})
  /\ (forall j params,
        (j, params) ∈ invocations (events (run env self task website)) ->
        j <= i).
Proof.
  intros Hin.
  destruct (plan env task website) as [[checklist|e0] evp] eqn:Hplan; cbn [fst].
  - destruct (run_planned env self task website checklist evp Hplan)
      as (r & f & ev_loop & Hloop & Hframe & Hret & Hev).
    destruct (run_planned_outside env self task website checklist evp Hplan)
      as [Hpre Hpost].
    rewrite Hev in Hin.
    apply elem_of_app in Hin as [Hin|Hin];
      [by apply outside_not_raised in Hin|].
    apply elem_of_app in Hin as [Hin|Hin];
      [|by apply (outside_not_raised _ _ _ (Hpost r)) in Hin].
    pose proof (run_subtasks_raised env (ensure_browser self).1 task 1 checklist
                  (initial_frame (ensure_browser self).1 checklist) []
                  eq_refl eq_refl i e) as Hraised.
    rewrite Hloop in Hraised. cbn [fst snd] in Hraised.
    destruct (Hraised Hin) as (-> & (subtask & Hsub & Hst) & Hinv).
    split; [done|]. split.
    + exists f, checklist, subtask. repeat split; try done.
      rewrite Hst. f_equal. unfold status_after, failure_message, timeout_message.
      destruct (ensure_browser_keeps self) as (_ & -> & _).
      destruct e; try done.
    + intros j params. specialize (Hpost (Raise e)).
      rewrite Hev, invocations_app, (outside_invocations _ Hpre).
      rewrite invocations_app, (outside_invocations _ Hpost), app_nil_r.
      intros Hj. by apply (Hinv _ Hj).
  - rewrite (run_unplanned env self task website e0 evp Hplan) in Hin.
    cbn [events] in Hin. exfalso.
    pose proof (plan_outside env task website) as Hp. rewrite Hplan in Hp.
    pose proof (ensure_browser_outside self) as Hi.
    by apply (outside_not_raised _ _ _ (Forall_app_2 _ _ _ Hi Hp)) in Hin.
Qed.

Lemma failed_subtask_aborts_run_witness :
  let env := sample_env (PyStr <$> sample_checklist) (second_times_out "s1") in
  let out := run env sample_agent "find the first X" "example.org" in
  returned out = Raise (TimeoutError "")
  /\ (exists f checklist subtask,
        frame out = Some f
        /\ (plan env "find the first X" "example.org").1 = Ok checklist
        /\ checklist !! (2 - 1) = Some subtask
        /\ statuses f !! (2 - 1)
           = Some {| name := subtask; done := false;
                     error := Some "timed out after 60.0s" |})
  /\ (forall j params, (j, params) ∈ invocations (events out) -> j <= 2).
Proof.
  intros env out.
  apply (failed_subtask_aborts_run env sample_agent "find the first X"
           "example.org" 2 (TimeoutError "")).
  apply (list_elem_of_lookup_2 _ 11). vm_compute. reflexivity.
Defined.

(** C2 as stated fails for the raise case.  When the executor itself
    raises an [asyncio.TimeoutError] with a text, the status gets the
    deadline message and not the raised text; when the exception is a
    cancellation, the status gets no error at all. *)
Lemma raised_text_is_not_always_recorded :
  let out e :=
    run (sample_env (PyStr <$> sample_checklist) (second_raises e))
        sample_agent "find the first X" "example.org" in
  (EvRaised 2 (TimeoutError "navigation took too long")
     ∈ events (out (TimeoutError "navigation took too long"))
   /\ (statuses <$> frame (out (TimeoutError "navigation took too long")))
        ≫= (.!! 1)
      = Some {| name := "apply filter X"; done := false;
                error := Some "timed out after 60.0s" |})
  /\ (EvRaised 2 CancelledError ∈ events (out CancelledError)
      /\ (statuses <$> frame (out CancelledError)) ≫= (.!! 1)
         = Some {| name := "apply filter X"; done := false; error := None |})
  /\ ~ (forall env self task website i e f st,
          EvRaised i e ∈ events (run env self task website) ->
          str_exc e <> "" ->
          frame (run env self task website) = Some f ->
          statuses f !! (i - 1) = Some st ->
          error st = Some (str_exc e)).
Proof.
  intros out.
  assert (EvRaised 2 (TimeoutError "navigation took too long")
            ∈ events (out (TimeoutError "navigation took too long"))) as Hin
    by (apply (list_elem_of_lookup_2 _ 11); vm_compute; reflexivity).
  split; [split; [exact Hin|reflexivity]|].
  split.
  { split; [|reflexivity].
    apply (list_elem_of_lookup_2 _ 11). vm_compute. reflexivity. }
  intros Hclaim.
  assert (exists f, frame (out (TimeoutError "navigation took too long")) = Some f
                    /\ statuses f !! (2 - 1)
                       = Some {| name := "apply filter X"; done := false;
                                 error := Some "timed out after 60.0s" |})
    as (f & Hf & Hst) by (eexists; split; reflexivity).
  specialize (Hclaim _ _ _ _ 2 (TimeoutError "navigation took too long") f _
                Hin ltac:(discriminate) Hf Hst).
  discriminate Hclaim.
Qed.

(* ===================================================================== *)
(** ** Checklist acquisition                                             *)
(* ===================================================================== *)

Lemma forallb_isinstance_str refined :
  forallb isinstance_str refined = true ->
  PyStr <$> omap as_str refined = refined.
Proof.
  induction refined as [|v refined IH]; [done|].
  destruct v; try done.
  cbn [forallb isinstance_str andb]. intros H.
  change (omap as_str (PyStr s :: refined)) with (s :: omap as_str refined).
  by rewrite fmap_cons, IH.
Qed.

(** C3, as the code has it.  Planning fails with the TypeError exactly when
    the refined plan holds an element that is not a string, and then the
    run raises it without invoking the executor.  A plan of strings is
    accepted as it is, the empty one too: the run then returns an empty
    trace, again without invoking the executor. *)
Theorem plan_rejects_only_non_strings env self task website raw refined :
  planner_chain env (strip task +:+ ". Website: " +:+ strip website) = Ok raw ->
  refine_chain env raw = Ok refined ->
  (forallb isinstance_str refined = false ->
     (plan env task website).1 = Raise (TypeError "Planner must return List[str]")
     /\ returned (run env self task website)
        = Raise (TypeError "Planner must return List[str]")
     /\ invocations (events (run env self task website)) = [])
  /\ (forallb isinstance_str refined = true ->
        exists checklist,
          (plan env task website).1 = Ok checklist
          /\ PyStr <$> checklist = refined
          /\ is_Some (frame (run env self task website)))
  /\ (refined = [] ->
        returned (run env self task website)
        = Ok {| history := []; subtask_history := [] |}
        /\ invocations (events (run env self task website)) = []).
Proof.
  intros Hraw Hrefined.
  assert (plan env task website
          = (if forallb isinstance_str refined
             then Ok (omap as_str refined)
             else Raise (TypeError "Planner must return List[str]"),
             [EvPlannerChain (strip task +:+ ". Website: " +:+ strip website);
              EvRefineChain raw])) as Hplan.
  { unfold plan. by rewrite Hraw, Hrefined. }
  split; [|split].
  - intros Hbad. rewrite Hbad in Hplan.
    rewrite (run_unplanned env self task website _ _ Hplan), Hplan.
    cbn [fst returned events]. repeat split.
    apply outside_invocations, Forall_app_2;
      [apply ensure_browser_outside | repeat constructor].
  - intros Hgood. rewrite Hgood in Hplan.
    destruct (run_planned env self task website _ _ Hplan)
      as (r & f & ev_loop & _ & -> & _).
    exists (omap as_str refined). rewrite Hplan. cbn [fst].
    split; [done|]. split; [by apply forallb_isinstance_str | eauto].
  - intros ->. cbn [forallb omap list_omap] in Hplan.
    destruct (run_planned env self task website _ _ Hplan)
      as (r & f & ev_loop & Hloop & _ & -> & ->).
    cbn [run_subtasks] in Hloop. injection Hloop as <- <- <-.
    split; [done|].
    apply outside_invocations.
    repeat apply Forall_app_2;
      first [apply ensure_browser_outside | apply teardown_outside
            | repeat constructor].
Qed.

Lemma plan_rejects_only_non_strings_witness :
  let env := sample_env [PyStr "open search page"; PyInt 2] all_complete in
  (plan env "find the first X" "example.org").1
  = Raise (TypeError "Planner must return List[str]")
  /\ returned (run env sample_agent "find the first X" "example.org")
     = Raise (TypeError "Planner must return List[str]")
  /\ invocations (events (run env sample_agent "find the first X" "example.org"))
     = [].
Proof.
  intros env.
  apply (proj1 (plan_rejects_only_non_strings env sample_agent
                  "find the first X" "example.org"
                  [PyStr "search, filter, pick the first result"]
                  [PyStr "open search page"; PyInt 2] eq_refl eq_refl)).
  reflexivity.
Defined.

(** C3 as stated fails: an empty result of the planning service is not
    rejected, and the run that follows succeeds on the empty checklist. *)
Lemma empty_plan_is_accepted :
  ~ (forall env task website raw,
       planner_chain env (strip task +:+ ". Website: " +:+ strip website) = Ok raw ->
       refine_chain env raw = Ok [] ->
       exists e, (plan env task website).1 = Raise e)
  /\ (plan (sample_env [] all_complete) "find the first X" "example.org").1 = Ok []
  /\ returned (run (sample_env [] all_complete) sample_agent
                   "find the first X" "example.org")
     = Ok {| history := []; subtask_history := [] |}.
Proof.
  split; [|split; reflexivity].
  intros Hclaim.
  destruct (Hclaim (sample_env [] all_complete) "find the first X" "example.org"
              [PyStr "search, filter, pick the first result"] eq_refl eq_refl)
    as [e He].
  discriminate He.
Qed.

(* ===================================================================== *)
(** ** The progress digest                                               *)
(* ===================================================================== *)

Lemma omap_head {A B} (f : A -> option B) x l :
  omap f (x :: l) = match f x with
                    | Some y => y :: omap f l
                    | None => omap f l
                    end.
Proof. done. Qed.

Lemma progress_lines_from_split idx j sts :
  progress_lines_from idx j sts
  = omap past_line (take (idx - j) (enumerate j sts))
    ++ (next_line <$> drop (idx - j) (enumerate j sts)).
Proof.
  revert j. induction sts as [|st sts IH]; intros j;
    [change (enumerate j []) with (@nil (nat * SubtaskStatus));
     by rewrite take_nil, drop_nil|].
  rewrite enumerate_cons. cbn [progress_lines_from]. rewrite IH.
  destruct (j <? idx)%nat eqn:Hlt.
  - apply Nat.ltb_lt in Hlt.
    replace (idx - j) with (S (idx - S j)) by lia.
    cbn [take drop].
    rewrite omap_head.
    assert (past_line (j, st)
            = if done st then Some (line_done j st)
              else line_error j st <$> error_truthy (error st)) as -> by done.
    destruct (done st); [done|]. by destruct (error_truthy (error st)).
  - apply Nat.ltb_ge in Hlt.
    replace (idx - j) with 0 by lia. replace (idx - S j) with 0 by lia.
    by rewrite !take_0, !drop_0.
Qed.

(** C5, as the code has it.  The digest has, in order, one line for each
    entry before the current index that is done (a done line) or carries a
    non-empty error (an error line with the reason), no line for the other
    entries before it, and one COMING UP NEXT line for every entry from the
    current index on, not for the current entry only. *)
Theorem progress_lines_shape (idx : nat) (sts : list SubtaskStatus) :
  progress_lines idx sts
  = omap past_line (take (idx - 1) (enumerate 1 sts))
    ++ (next_line <$> drop (idx - 1) (enumerate 1 sts)).
Proof. apply progress_lines_from_split. Qed.

(** C5 as stated fails: the entries after the current one are annotated
    COMING UP NEXT as well. *)
Lemma later_entries_marked_next :
  progress_lines 1 [new_status "open search page"; new_status "apply filter X"]
  = ["🔄 Step 1: open search page (COMING UP NEXT)";
     "🔄 Step 2: apply filter X (COMING UP NEXT)"]
  /\ ~ (forall idx sts j st,
          sts !! (j - 1) = Some st -> idx < j ->
          line_next j st ∉ progress_lines idx sts).
Proof.
  split; [reflexivity|].
  intros Hclaim.
  apply (Hclaim 1 [new_status "open search page"; new_status "apply filter X"]
           2 (new_status "apply filter X") eq_refl); [lia|].
  apply (list_elem_of_lookup_2 _ 1). reflexivity.
Qed.

(* ===================================================================== *)
(** ** Trace assembly and scheduling                                     *)
(* ===================================================================== *)

(** A run that returns went through a successful planning and a loop that
    ended normally. *)
Lemma run_returned env self task website trace :
  returned (run env self task website) = Ok trace ->
  exists checklist evp f ev_loop,
    plan env task website = (Ok checklist, evp)
    /\ run_subtasks env (ensure_browser self).1 task 1 checklist
         (initial_frame (ensure_browser self).1 checklist) = (Ok tt, f, ev_loop)
    /\ trace = {| history := combined_history f; subtask_history := statuses f |}
    /\ events (run env self task website)
       = ((ensure_browser self).2 ++ evp ++ [EvSessionStart]) ++ ev_loop
         ++ (teardown (ensure_browser self).1 ++ teardown (ensure_browser self).1)
    /\ Forall (fun ev => event_idx ev = None)
              ((ensure_browser self).2 ++ evp ++ [EvSessionStart])
    /\ Forall (fun ev => event_idx ev = None)
              (teardown (ensure_browser self).1 ++ teardown (ensure_browser self).1).
Proof.
  intros Hret.
  destruct (plan env task website) as [[checklist|e] evp] eqn:Hplan.
  - destruct (run_planned env self task website checklist evp Hplan)
      as (r & f & ev_loop & Hloop & _ & Hr & Hev).
    destruct (run_planned_outside env self task website checklist evp Hplan)
      as [Hpre Hpost].
    rewrite Hr in Hret. destruct r as [[]|e]; [|discriminate].
    injection Hret as <-. specialize (Hpost (Ok tt)).
    by exists checklist, evp, f, ev_loop.
  - by rewrite (run_unplanned env self task website e evp Hplan) in Hret.
Qed.

(** C6. The steps of the trace a successful run returns are the steps of
    the sub-histories the executor returned, subtask after subtask from 1
    to N: nothing added, dropped or reordered. *)
Theorem trace_concatenates_sub_histories env self task website trace :
  returned (run env self task website) = Ok trace ->
  history trace
  = concat ((fun x => sub_dump_history x.2) <$>
              returned_histories (events (run env self task website)))
  /\ exists checklist,
       (plan env task website).1 = Ok checklist
       /\ (returned_histories (events (run env self task website))).*1
          = seq 1 (length checklist).
Proof.
  intros Hret.
  destruct (run_returned env self task website trace Hret)
    as (checklist & evp & f & ev_loop & Hplan & Hloop & -> & -> & Hpre & Hpost).
  pose proof (run_subtasks_history env (ensure_browser self).1 task 1 checklist
                (initial_frame (ensure_browser self).1 checklist)) as Hhist.
  rewrite Hloop in Hhist. cbn [fst snd] in Hhist.
  destruct (Hhist eq_refl) as [Hh Hidx].
  rewrite returned_histories_app, (outside_returned_histories _ Hpre).
  rewrite returned_histories_app, (outside_returned_histories _ Hpost), app_nil_r.
  split; [exact Hh|].
  exists checklist. by rewrite Hplan.
Qed.

Lemma trace_concatenates_sub_histories_witness :
  let out := run (sample_env (PyStr <$> sample_checklist) all_complete)
                 sample_agent "find the first X" "example.org" in
  history {| history := (fun i => {| screenshot := pretty i;
                                      model_output := Some "click";
                                      step_result :=
                                        [ {| is_done := true;
                                             step_error := None |} ] |})
                        <$> [1; 2; 3];
             subtask_history := done_status <$> sample_checklist |}
  = concat ((fun x => sub_dump_history x.2) <$> returned_histories (events out))
  /\ exists checklist,
       (plan (sample_env (PyStr <$> sample_checklist) all_complete)
             "find the first X" "example.org").1 = Ok checklist
       /\ (returned_histories (events out)).*1 = seq 1 (length checklist).
Proof.
  intros out.
  apply (trace_concatenates_sub_histories
           (sample_env (PyStr <$> sample_checklist) all_complete)
           sample_agent "find the first X" "example.org").
  vm_compute. reflexivity.
Defined.

Lemma run_subtasks_invoked_once idx rest f env self task :
  (run_subtasks env self task idx rest f).1.1 = Ok tt ->
  length (invocations (run_subtasks env self task idx rest f).2) = length rest.
Proof.
  apply (run_subtasks_cases env self task
    (fun idx rest f res =>
       res.1.1 = Ok tt -> length (invocations res.2) = length rest));
    clear idx rest f.
  - done.
  - intros idx subtask rest f sh ctx1 sts page' ctx2 r f' later _ _ _ _ IH Hok.
    cbn [fst snd] in *. rewrite invocations_completed. cbn [length].
    by rewrite (IH Hok).
  - intros. discriminate.
  - intros idx subtask rest f e ctx1 r f' evs _ Hexc Hok. simpl in Hok.
    destruct (except_clauses_raises self idx e (after_executor f ctx1)) as [e' He'].
    rewrite Hexc in He'. simpl in He'. congruence.
Qed.

Lemma lookup_completed self task idx subtask f sh sts page' later n :
  ((iteration_start self task idx subtask f
      ++ [EvReturned idx sh; EvMarkDone idx sts])
   ++ [EvKeepLastPage idx page'] ++ later) !! (5 + n)
  = later !! n.
Proof. done. Qed.

Lemma lookup_inside {A} (before inside after : list A) n x :
  inside !! n = Some x ->
  (before ++ inside ++ after) !! (length before + n) = Some x.
Proof.
  intros Hn. rewrite lookup_app_r by lia.
  replace (length before + n - length before) with n by lia.
  by apply lookup_app_l_Some.
Qed.

(** Where an invocation sits among the events of the loop: the invocation
    of the subtask the loop was entered at comes right after the head of
    its iteration; every later one comes right after the five events of
    the iteration before it, whose executor call returned, whose status
    was marked done and whose page was handed off. *)
Lemma run_subtasks_order env self task idx rest f :
  forall pre, idx = S (length pre) -> statuses f = statuses_at pre rest ->
  forall p j params,
    (run_subtasks env self task idx rest f).2 !! p = Some (EvAgentRun j params) ->
    (j = idx /\ p = 1
     /\ (run_subtasks env self task idx rest f).2 !! 0
        = Some (EvIteration idx (statuses f)))
    \/ (exists i q params0 h sts st pg,
          j = S i /\ idx <= i /\ p = q + 5
          /\ (run_subtasks env self task idx rest f).2 !! q
             = Some (EvAgentRun i params0)
          /\ (run_subtasks env self task idx rest f).2 !! (q + 1)
             = Some (EvReturned i h)
          /\ (run_subtasks env self task idx rest f).2 !! (q + 2)
             = Some (EvMarkDone i sts)
          /\ sts !! (i - 1) = Some st /\ done st = true /\ error st = None
          /\ (run_subtasks env self task idx rest f).2 !! (q + 3)
             = Some (EvKeepLastPage i pg)
          /\ (run_subtasks env self task idx rest f).2 !! (q + 4)
             = Some (EvIteration (S i) sts)).
Proof.
  apply (run_subtasks_cases env self task
    (fun idx rest f res => forall pre, idx = S (length pre) ->
       statuses f = statuses_at pre rest ->
       forall p j params,
         res.2 !! p = Some (EvAgentRun j params) ->
         (j = idx /\ p = 1 /\ res.2 !! 0 = Some (EvIteration idx (statuses f)))
         \/ (exists i q params0 h sts st pg,
               j = S i /\ idx <= i /\ p = q + 5
               /\ res.2 !! q = Some (EvAgentRun i params0)
               /\ res.2 !! (q + 1) = Some (EvReturned i h)
               /\ res.2 !! (q + 2) = Some (EvMarkDone i sts)
               /\ sts !! (i - 1) = Some st /\ done st = true /\ error st = None
               /\ res.2 !! (q + 3) = Some (EvKeepLastPage i pg)
               /\ res.2 !! (q + 4) = Some (EvIteration (S i) sts)))); clear.
  - intros idx f pre _ _ p j params Hp. discriminate Hp.
  - intros idx subtask rest f sh ctx1 sts page' ctx2 r f' later
      _ Hmut _ _ IH pre -> Hst p j params Hp. cbn [fst snd] in *.
    rewrite Hst in Hmut. unfold statuses_at in Hmut.
    rewrite fmap_cons in Hmut. norm_index.
    rewrite mutate_at_current in Hmut. injection Hmut as <-.
    destruct p as [|[|[|[|[|p]]]]]; try discriminate Hp.
    { injection Hp as <- <-. left. done. }
    right.
    change (later !! p = Some (EvAgentRun j params)) in Hp.
    destruct (IH (pre ++ [subtask])) with (p := p) (j := j) (params := params)
      as [(-> & -> & Hhead)
         |(i & q & params0 & h & sts & st & pg & -> & Hle & -> & H0 & H1 & H2
             & Hst' & Hdone & Herr & H3 & H4)];
      [rewrite length_app; simpl; lia | apply statuses_at_next | done | |].
    + exists (S (length pre)), 1,
        (build_params self task (S (length pre)) subtask (page f) (statuses f)),
        sh, ((done_status <$> pre) ++ mark_done (new_status subtask)
               :: (new_status <$> rest)),
        (mark_done (new_status subtask)), page'.
      split; [done|]. split; [lia|]. split; [done|].
      split; [done|]. split; [done|]. split; [done|]. norm_index.
      split; [apply list_lookup_middle; by rewrite length_fmap|].
      split; [done|]. split; [done|]. split; [done|]. exact Hhead.
    + exists i, (5 + q), params0, h, sts, st, pg.
      split; [done|]. split; [lia|]. split; [lia|].
      replace (5 + q + 1) with (5 + (q + 1)) by lia.
      replace (5 + q + 2) with (5 + (q + 2)) by lia.
      replace (5 + q + 3) with (5 + (q + 3)) by lia.
      replace (5 + q + 4) with (5 + (q + 4)) by lia.
      rewrite !lookup_completed.
      done.
  - intros idx subtask rest f sh ctx1 _ Hmut pre -> Hst. exfalso.
    rewrite Hst in Hmut. unfold statuses_at in Hmut.
    rewrite fmap_cons in Hmut. norm_index.
    by rewrite mutate_at_current in Hmut.
  - intros idx subtask rest f e ctx1 r f' evs _ Hexc pre _ _ p j params Hp.
    cbn [fst snd] in *.
    pose proof (except_clauses_only_marks self idx e (after_executor f ctx1)) as Hm.
    rewrite Hexc in Hm. cbn [snd] in Hm.
    destruct p as [|[|[|p]]]; try discriminate Hp.
    + injection Hp as <- <-. left. done.
    + exfalso. change (evs !! p = Some (EvAgentRun j params)) in Hp.
      destruct (Forall_lookup_1 _ _ _ _ Hm Hp) as (m & sts & [=]).
Qed.



(* ===================================================================== *)
(** ** initial_actions                                                   *)
(* ===================================================================== *)

(** C10. Whatever the outcomes of the subtasks, the keyword dict of an
    executor invocation has the key [initial_actions] only for subtask 1
    (and there only if the agent was given a non-empty list); the
    invocations are numbered 1, 2, ... in the order they happen. *)
Theorem initial_actions_only_for_first_subtask env self task website j params :
  (j, params) ∈ invocations (events (run env self task website)) ->
  (2 <= j -> params !! "initial_actions" = None)
  /\ (j = 1 ->
        params !! "initial_actions"
        = if actions_truthy (initial_actions self)
          then Some (VActions (default [] (initial_actions self)))
          else None)
  /\ (invocations (events (run env self task website))).*1
     = seq 1 (length (invocations (events (run env self task website)))).
Proof.
  intros Hin.
  destruct (plan env task website) as [[checklist|e] evp] eqn:Hplan.
  - destruct (run_planned env self task website checklist evp Hplan)
      as (r & f & ev_loop & Hloop & _ & _ & Hev).
    destruct (run_planned_outside env self task website checklist evp Hplan)
      as [Hpre Hpost]. specialize (Hpost r).
    rewrite Hev in Hin |- *.
    rewrite invocations_app, (outside_invocations _ Hpre) in Hin |- *.
    rewrite invocations_app, (outside_invocations _ Hpost), app_nil_r in Hin |- *.
    rewrite app_nil_l in Hin |- *.
    pose proof (run_subtasks_invocations env (ensure_browser self).1 task 1
                  checklist (initial_frame (ensure_browser self).1 checklist))
      as [Hall Hseq].
    rewrite Hloop in Hall, Hseq. cbn [snd] in Hall, Hseq.
    rewrite Forall_forall in Hall.
    destruct (Hall _ Hin) as (subtask & pg & sts & Hparams).
    cbn [fst snd] in Hparams. subst params.
    rewrite build_params_initial_actions.
    destruct (ensure_browser_keeps self) as (-> & _ & _).
    split; [|split; [|exact Hseq]].
    + intros Hj. by replace (j =? 1)%nat with false by (symmetry; apply Nat.eqb_neq; lia).
    + by intros ->.
  - rewrite (run_unplanned env self task website e evp Hplan) in Hin.
    cbn [events] in Hin. exfalso.
    pose proof (plan_outside env task website) as Hp. rewrite Hplan in Hp.
    cbn [snd] in Hp.
    pose proof (ensure_browser_outside self) as Hi.
    rewrite (outside_invocations _ (Forall_app_2 _ _ _ Hi Hp)) in Hin.
    by apply elem_of_nil in Hin.
Qed.

Lemma initial_actions_only_for_first_subtask_witness :
  let env := sample_env (PyStr <$> sample_checklist) (second_times_out "s1") in
  let out := run env sample_agent "find the first X" "example.org" in
  exists params,
    (2, params) ∈ invocations (events out)
    /\ params !! "initial_actions" = None
    /\ (invocations (events out)).*1 = seq 1 (length (invocations (events out))).
Proof.
  intros env out.
  assert (exists params, invocations (events out) !! 1 = Some (2, params))
    as [params Hparams] by (eexists; reflexivity).
  exists params.
  pose proof (list_elem_of_lookup_2 _ _ _ Hparams) as Hin.
  destruct (initial_actions_only_for_first_subtask env sample_agent
              "find the first X" "example.org" 2 params Hin) as (Hnone & _ & Hseq).
  split; [exact Hin|]. split; [apply Hnone; lia | exact Hseq].
Defined.

(* ===================================================================== *)
(** ** The status list                                                   *)
(* ===================================================================== *)

Lemma code_invariant_mutate_current i m sts sts' :
  1 <= i -> code_invariant i sts ->
  mutate_at (i - 1) m sts = Some sts' ->
  code_invariant i sts'.
Proof.
  intros Hi Hinv Hmut j st Hj. unfold mutate_at in Hmut.
  destruct (sts !! (i - 1)) as [st0|] eqn:Hcur; [|discriminate].
  injection Hmut as <-.
  destruct (decide (j = i - 1)) as [->|Hne].
  - split; intros; lia.
  - rewrite list_lookup_insert_ne in Hj by done. by apply Hinv.
Qed.

Lemma status_invariant_current pre st rest :
  1 <= S (length pre)
  /\ code_invariant (S (length pre))
       ((done_status <$> pre) ++ st :: (new_status <$> rest))
  /\ ((done_status <$> pre) ++ st :: (new_status <$> rest))
       !! (S (length pre) - 1) = Some st.
Proof.
  split; [lia|]. split; [apply code_invariant_current|].
  norm_index. apply list_lookup_middle. by rewrite length_fmap.
Qed.

Lemma outside_status_invariant evs :
  Forall (fun ev => event_idx ev = None) evs -> Forall status_invariant_at evs.
Proof.
  intros Hout. eapply Forall_impl; [exact Hout|]. by intros [].
Qed.

(** Along the loop every event that carries the status list finds it in
    the shape of the current index, with the current status as the event
    left it. *)
Lemma run_subtasks_status_invariant env self task idx rest f :
  forall pre, idx = S (length pre) -> statuses f = statuses_at pre rest ->
  Forall status_invariant_at (run_subtasks env self task idx rest f).2.
Proof.
  apply (run_subtasks_cases env self task
    (fun idx rest f res => forall pre, idx = S (length pre) ->
       statuses f = statuses_at pre rest ->
       Forall status_invariant_at res.2)); clear.
  - intros. constructor.
  - intros idx subtask rest f sh ctx1 sts page' ctx2 r f' later
      _ Hmut _ _ IH pre -> Hst. cbn [fst snd] in *.
    rewrite Hst in Hmut. unfold statuses_at in Hmut.
    rewrite fmap_cons in Hmut. norm_index.
    rewrite mutate_at_current in Hmut. injection Hmut as <-.
    unfold iteration_start. rewrite Hst. unfold statuses_at.
    rewrite fmap_cons. cbn [app].
    destruct (status_invariant_current pre (new_status subtask) rest)
      as (Hi & Hinv & Hcur).
    destruct (status_invariant_current pre (mark_done (new_status subtask)) rest)
      as (_ & Hinv' & Hcur').
    constructor;
      [by (split; [done|]; split; [done|]; eexists; split; [exact Hcur|])|].
    constructor; [done|]. constructor; [done|].
    constructor;
      [by (split; [done|]; split; [done|]; eexists; split; [exact Hcur'|])|].
    constructor; [done|].
    apply (IH (pre ++ [subtask]));
      [rewrite length_app; simpl; lia | apply statuses_at_next].
  - intros idx subtask rest f sh ctx1 _ Hmut pre -> Hst. exfalso.
    rewrite Hst in Hmut. unfold statuses_at in Hmut.
    rewrite fmap_cons in Hmut. norm_index.
    by rewrite mutate_at_current in Hmut.
  - intros idx subtask rest f e ctx1 r f' evs _ Hexc pre Hidx Hst.
    destruct (except_clauses_current _ _ _ _ _ _ _ _ _ _ _ Hidx Hst Hexc)
      as (_ & _ & Hst' & ->). subst idx. cbn [fst snd].
    unfold iteration_start. rewrite Hst. unfold statuses_at.
    rewrite fmap_cons. cbn [app].
    destruct (status_invariant_current pre (new_status subtask) rest)
      as (Hi & Hinv & Hcur).
    constructor;
      [by (split; [done|]; split; [done|]; eexists; split; [exact Hcur|])|].
    constructor; [done|]. constructor; [done|].
    destruct (failure_message self e) as [m|]; cbn [from_option] in *;
      [|constructor].
    constructor; [|constructor]. rewrite Hst'.
    destruct (status_invariant_current pre (mark_error m (new_status subtask)) rest)
      as (_ & Hinv' & Hcur').
    by (split; [done|]; split; [done|]; eexists; split; [exact Hcur'|]).
Qed.

(** C8, as the code has it.  A status is pending, done or failed: there is
    no Running state and no markRunning.  At every point of a run where the
    status list or the current index [i] has just changed, every status
    before [i] is done with no error and every status after [i] is pending;
    the status at [i] is pending at the head of the iteration (the
    executor call is made on this list), done with no error right after
    [mark_done], and not done with the recorded text right after
    [mark_error].  [mark_done] and [mark_error] on a pending status at the
    current index keep this, and after [mark_done] the list is as the next
    index wants it. *)
Theorem statuses_follow_the_current_index env self task website :
  Forall status_invariant_at (events (run env self task website))
  /\ (forall i sts st,
        1 <= i -> code_invariant i sts ->
        sts !! (i - 1) = Some st -> pending st ->
        exists sts',
          mutate_at (i - 1) mark_done sts = Some sts'
          /\ status_invariant_at (EvMarkDone i sts')
          /\ code_invariant (S i) sts')
  /\ (forall i err sts st,
        1 <= i -> code_invariant i sts ->
        sts !! (i - 1) = Some st -> pending st ->
        exists sts',
          mutate_at (i - 1) (mark_error err) sts = Some sts'
          /\ status_invariant_at (EvMarkError i err sts')).
Proof.
  split; [|split].
  - destruct (plan env task website) as [[checklist|e] evp] eqn:Hplan.
    + destruct (run_planned env self task website checklist evp Hplan)
        as (r & f & ev_loop & Hloop & _ & _ & ->).
      destruct (run_planned_outside env self task website checklist evp Hplan)
        as [Hpre Hpost]. specialize (Hpost r).
      pose proof (run_subtasks_status_invariant env (ensure_browser self).1 task 1
                    checklist (initial_frame (ensure_browser self).1 checklist) []
                    eq_refl eq_refl) as Hinv.
      rewrite Hloop in Hinv. cbn [snd] in Hinv.
      apply Forall_app_2; [by apply outside_status_invariant|].
      apply Forall_app_2; [done | by apply outside_status_invariant].
    + rewrite (run_unplanned env self task website e evp Hplan). cbn [events].
      pose proof (plan_outside env task website) as Hp. rewrite Hplan in Hp.
      cbn [snd] in Hp. pose proof (ensure_browser_outside self) as Hi.
      apply outside_status_invariant. by apply Forall_app_2.
  - intros i sts st Hi Hinv Hcur [Hdone Herr].
    exists (<[i - 1 := mark_done st]> sts).
    assert (mutate_at (i - 1) mark_done sts
            = Some (<[i - 1 := mark_done st]> sts)) as Hmut
      by (unfold mutate_at; by rewrite Hcur).
    pose proof (code_invariant_mutate_current i _ _ _ Hi Hinv Hmut) as Hinv'.
    assert (<[i - 1 := mark_done st]> sts !! (i - 1) = Some (mark_done st))
      as Hcur' by (apply list_lookup_insert_eq; by eapply lookup_lt_Some).
    split; [done|]. split.
    + split; [done|]. split; [done|]. exists (mark_done st). by repeat split.
    + intros j st' Hj. destruct (decide (j = i - 1)) as [->|Hne].
      * rewrite Hcur' in Hj. injection Hj as <-.
        split; [by intros _|intros; lia].
      * split; intros Hlt; apply (Hinv' j st' Hj); lia.
  - intros i err sts st Hi Hinv Hcur [Hdone Herr].
    exists (<[i - 1 := mark_error err st]> sts).
    assert (mutate_at (i - 1) (mark_error err) sts
            = Some (<[i - 1 := mark_error err st]> sts)) as Hmut
      by (unfold mutate_at; by rewrite Hcur).
    pose proof (code_invariant_mutate_current i _ _ _ Hi Hinv Hmut) as Hinv'.
    split; [done|]. split; [done|]. split; [done|].
    exists (mark_error err st).
    split; [apply list_lookup_insert_eq; by eapply lookup_lt_Some|].
    by split.
Qed.

Lemma statuses_follow_the_current_index_witness :
  let env := sample_env (PyStr <$> sample_checklist) (second_times_out "s1") in
  let out := run env sample_agent "find the first X" "example.org" in
  exists sts failed,
    events out !! 9 = Some (EvIteration 2 sts)
    /\ status_invariant_at (EvIteration 2 sts)
    /\ events out !! 12 = Some (EvMarkError 2 "timed out after 60.0s" failed)
    /\ mutate_at (2 - 1) (mark_error "timed out after 60.0s") sts = Some failed
    /\ status_invariant_at (EvMarkError 2 "timed out after 60.0s" failed)
    /\ exists sts',
         mutate_at (2 - 1) mark_done sts = Some sts'
         /\ status_invariant_at (EvMarkDone 2 sts')
         /\ code_invariant (S 2) sts'.
Proof.
  intros env out.
  destruct (statuses_follow_the_current_index env sample_agent
              "find the first X" "example.org") as (Hall & Hdone & Herror).
  assert (exists sts, events out !! 9 = Some (EvIteration 2 sts)
                      /\ sts !! (2 - 1) = Some (new_status "apply filter X"))
    as (sts & Hhead & Hcur) by (eexists; split; reflexivity).
  pose proof (Forall_lookup_1 _ _ _ _ Hall Hhead) as (Hi & Hinv & _).
  destruct (Herror 2 "timed out after 60.0s" sts _ Hi Hinv Hcur)
    as (failed & Hmut & Hfailed); [done|].
  destruct (Hdone 2 sts _ Hi Hinv Hcur) as (sts' & Hmut' & Hdone' & Hnext);
    [done|].
  exists sts, failed.
  split; [exact Hhead|]. split; [exact (Forall_lookup_1 _ _ _ _ Hall Hhead)|].
  split.
  { injection Hhead as <-. vm_compute in Hmut. injection Hmut as <-.
    reflexivity. }
  split; [exact Hmut|]. split; [exact Hfailed|].
  by exists sts'.
Defined.

(** C8 as stated fails, whatever status is read as Running (as long as a
    running status is not terminal): once subtask 1 has been marked done,
    and while the loop is still at index 1, its status is neither running
    nor pending. *)
Lemma done_status_at_current_index :
  ~ exists running : SubtaskStatus -> Prop,
      (forall st, running st -> ~ terminal st)
      /\ forall x,
           x ∈ snapshots (events (run (sample_env [PyStr "open search page"]
                                                  all_complete)
                                      sample_agent "find the first X"
                                      "example.org")) ->
           spec_invariant running x.1 x.2.
Proof.
  intros (running & Hdisj & Hall).
  destruct (Hall (1, [done_status "open search page"])) as (_ & _ & Hpending).
  { apply (list_elem_of_lookup_2 _ 1). reflexivity. }
  destruct (Hpending 0 (done_status "open search page") eq_refl) as [Hdone _];
    [simpl; lia | | discriminate Hdone].
  intros Hrun. apply (Hdisj _ Hrun). by left.
Qed.

(* ===================================================================== *)
(** ** What the caller gets                                              *)
(* ===================================================================== *)

(** While the status list has its shape, the history in the frame is
    that of the sub-histories returned so far, however the loop ends; a
    failure in subtask [i] comes after the returns of the subtasks before
    it. *)
Lemma run_subtasks_partial_history env self task idx rest f :
  forall pre, idx = S (length pre) -> statuses f = statuses_at pre rest ->
  combined_history (run_subtasks env self task idx rest f).1.2
  = combined_history f
    ++ concat ((fun x => sub_dump_history x.2) <$>
                 returned_histories (run_subtasks env self task idx rest f).2)
  /\ forall i e,
       EvRaised i e ∈ (run_subtasks env self task idx rest f).2 ->
       (returned_histories (run_subtasks env self task idx rest f).2).*1
       = seq idx (i - idx).
Proof.
  apply (run_subtasks_cases env self task
    (fun idx rest f res => forall pre, idx = S (length pre) ->
       statuses f = statuses_at pre rest ->
       combined_history res.1.2
       = combined_history f
         ++ concat ((fun x => sub_dump_history x.2) <$> returned_histories res.2)
       /\ forall i e, EvRaised i e ∈ res.2 ->
            (returned_histories res.2).*1 = seq idx (i - idx))); clear.
  - intros idx f pre _ _. cbn [fst snd]. split; [by rewrite app_nil_r|].
    intros i e Hin. by apply elem_of_nil in Hin.
  - intros idx subtask rest f sh ctx1 sts page' ctx2 r f' later
      _ Hmut _ Hrest IH pre -> Hst. cbn [fst snd] in *.
    rewrite Hst in Hmut. unfold statuses_at in Hmut.
    rewrite fmap_cons in Hmut. norm_index.
    rewrite mutate_at_current in Hmut. injection Hmut as <-.
    destruct (IH (pre ++ [subtask])) as [-> IH2];
      [rewrite length_app; simpl; lia | apply statuses_at_next |].
    rewrite returned_histories_completed, !fmap_cons. cbn [concat fst snd].
    split; [unfold after_subtask; cbn [combined_history]; by rewrite <- app_assoc|].
    intros i e Hin.
    assert (EvRaised i e ∈ later) as Hlater.
    { unfold iteration_start in Hin. by elem_cases Hin. }
    pose proof (run_subtasks_event_idx env self task (S (S (length pre))) rest
                  (after_subtask f
                     ((done_status <$> pre) ++ mark_done (new_status subtask)
                        :: (new_status <$> rest)) sh page' ctx2)) as Hidx.
    rewrite Hrest in Hidx. cbn [snd] in Hidx. rewrite Forall_forall in Hidx.
    destruct (Hidx _ Hlater) as (i' & [= <-] & Hle).
    rewrite (IH2 i e Hlater).
    replace (i - S (length pre)) with (S (i - S (S (length pre)))) by lia. done.
  - intros idx subtask rest f sh ctx1 _ Hmut pre -> Hst. exfalso.
    rewrite Hst in Hmut. unfold statuses_at in Hmut.
    rewrite fmap_cons in Hmut. norm_index.
    by rewrite mutate_at_current in Hmut.
  - intros idx subtask rest f e ctx1 r f' evs _ Hexc pre Hidx Hst.
    cbn [fst snd].
    pose proof (except_clauses_only_marks self idx e (after_executor f ctx1)) as Hm.
    rewrite Hexc in Hm. cbn [snd] in Hm. rewrite Forall_forall in Hm.
    destruct (except_clauses_current self _ _ _ _ _ _ _ _ _ _ Hidx Hst Hexc)
      as (_ & -> & _ & _).
    assert (returned_histories evs = []) as Hnone.
    { clear -Hm. induction evs as [|ev evs IH]; [done|].
      destruct (Hm ev) as (m & sts & ->); [by left|]. simpl.
      apply IH. intros ev' Hev'. apply Hm. by right. }
    rewrite !returned_histories_app, Hnone.
    change (returned_histories (iteration_start self task idx subtask f))
      with (@nil (nat * SubHistory)).
    change (returned_histories [EvRaised idx e]) with (@nil (nat * SubHistory)).
    cbn [app fmap list_fmap concat]. split; [by rewrite app_nil_r|].
    intros i e0 Hin. unfold iteration_start in Hin. elem_cases Hin.
    + injection Hin as -> ->. by rewrite Nat.sub_diag.
    + destruct (Hm _ Hin) as (m & sts & [=]).
Qed.

(** C9, as the code has it.  The caller gets either a trace in which every
    status is done, one per checklist entry, or the exception alone.  When
    the executor call of subtask [i] has raised, the steps of the subtasks
    1 to [i - 1] are in the frame of [run] and go with it: [run] raises,
    and what [run_task] stores is made of the task and of [str(e)] only,
    with an empty action history and no status list, or nothing at all
    when the exception is no [Exception] and passes through [run_task]. *)
Theorem run_returns_trace_or_error_alone env task website :
  (forall self trace,
     returned (run env self task website) = Ok trace ->
     exists checklist,
       (plan env task website).1 = Ok checklist
       /\ subtask_history trace = done_status <$> checklist)
  /\ (forall self i e,
        EvRaised i e ∈ events (run env self task website) ->
        returned (run env self task website) = Raise e
        /\ exists f,
             frame (run env self task website) = Some f
             /\ combined_history f
                = concat ((fun x => sub_dump_history x.2) <$>
                            returned_histories
                              (events (run env self task website)))
             /\ (returned_histories (events (run env self task website))).*1
                = seq 1 (i - 1))
  /\ (forall trace,
        returned (run env (task_agent website) task website) = Ok trace ->
        run_task env task website = SavedTrace trace)
  /\ (forall e fs,
        returned (run env (task_agent website) task website) = Raise e ->
        task_result_json fs env task website
        = if is_Exception e
          then Some {| rj_task := task;
                       rj_action_history := [];
                       rj_thoughts := None;
                       rj_final_result_response :=
                         Some ("Exception: " +:+ str_exc e);
                       rj_input_image_paths := [];
                       rj_subtask_history := None |}
          else None).
Proof.
  split; [|split; [|split]].
  - intros self trace Hret.
    destruct (run_returned env self task website trace Hret)
      as (checklist & evp & f & ev_loop & Hplan & Hloop & -> & _).
    exists checklist. rewrite Hplan. split; [done|]. cbn [subtask_history].
    pose proof (run_subtasks_all_done env (ensure_browser self).1 task 1 checklist
                  (initial_frame (ensure_browser self).1 checklist) []
                  eq_refl eq_refl) as Hdone.
    rewrite Hloop in Hdone. by apply Hdone.
  - intros self i e Hin.
    destruct (plan env task website) as [[checklist|e0] evp] eqn:Hplan.
    + destruct (run_planned env self task website checklist evp Hplan)
        as (r & f & ev_loop & Hloop & Hframe & Hret & Hev).
      destruct (run_planned_outside env self task website checklist evp Hplan)
        as [Hpre Hpost].
      rewrite Hev in Hin.
      apply elem_of_app in Hin as [Hin|Hin];
        [by apply outside_not_raised in Hin|].
      apply elem_of_app in Hin as [Hin|Hin];
        [|by apply (outside_not_raised _ _ _ (Hpost r)) in Hin].
      pose proof (run_subtasks_raised env (ensure_browser self).1 task 1 checklist
                    (initial_frame (ensure_browser self).1 checklist) []
                    eq_refl eq_refl i e) as Hraised.
      pose proof (run_subtasks_partial_history env (ensure_browser self).1 task 1
                    checklist (initial_frame (ensure_browser self).1 checklist) []
                    eq_refl eq_refl) as Hhist.
      rewrite Hloop in Hraised, Hhist. cbn [fst snd] in Hraised, Hhist.
      destruct (Hraised Hin) as (-> & _ & _). destruct Hhist as [Hh Hseq].
      split; [done|]. exists f. split; [done|].
      specialize (Hpost (Raise e)).
      rewrite Hev, returned_histories_app, (outside_returned_histories _ Hpre).
      rewrite returned_histories_app, (outside_returned_histories _ Hpost).
      rewrite app_nil_r. split; [exact Hh|]. exact (Hseq i e Hin).
    + rewrite (run_unplanned env self task website e0 evp Hplan) in Hin.
      cbn [events] in Hin. exfalso.
      pose proof (plan_outside env task website) as Hp. rewrite Hplan in Hp.
      pose proof (ensure_browser_outside self) as Hi.
      by apply (outside_not_raised _ _ _ (Forall_app_2 _ _ _ Hi Hp)) in Hin.
  - intros trace Hret. unfold run_task. by rewrite Hret.
  - intros e fs Hret. unfold task_result_json, run_task. rewrite Hret.
    by destruct (is_Exception e).
Qed.

Lemma run_returns_trace_or_error_alone_witness :
  let env := sample_env (PyStr <$> sample_checklist)
               (second_raises (TimeoutError "navigation took too long")) in
  let out := run env (task_agent "example.org") "find the first X"
                 "example.org" in
  (returned out = Raise (TimeoutError "navigation took too long")
   /\ exists f,
        frame out = Some f
        /\ combined_history f
           = concat ((fun x => sub_dump_history x.2) <$>
                       returned_histories (events out))
        /\ (returned_histories (events out)).*1 = seq 1 (2 - 1))
  /\ task_result_json {| path_exists := fun _ => false;
                         link_ok := fun _ _ => false;
                         decode_ok := fun _ _ => false |}
                      env "find the first X" "example.org"
     = Some {| rj_task := "find the first X";
               rj_action_history := [];
               rj_thoughts := None;
               rj_final_result_response :=
                 Some "Exception: navigation took too long";
               rj_input_image_paths := [];
               rj_subtask_history := None |}.
Proof.
  intros env out.
  destruct (run_returns_trace_or_error_alone env "find the first X" "example.org")
    as (_ & Hraised & _ & Hstored).
  split.
  - apply (Hraised (task_agent "example.org") 2
             (TimeoutError "navigation took too long")).
    apply (list_elem_of_lookup_2 _ 11). vm_compute. reflexivity.
  - apply (Hstored (TimeoutError "navigation took too long")).
    vm_compute. reflexivity.
Defined.

(** C9 as stated fails: the steps recorded before a failure are not
    delivered.  Two runs that differ in the steps of subtask 1 and both
    time out in subtask 2 look the same to the caller, so no caller can
    recover the partial trace from what [run] gives back. *)
Lemma partial_trace_is_dropped :
  let run_with tag :=
    run (sample_env (PyStr <$> sample_checklist) (second_times_out tag))
        (task_agent "example.org") "find the first X" "example.org" in
  (combined_history <$> frame (run_with "a"))
    <> (combined_history <$> frame (run_with "b"))
  /\ returned (run_with "a") = returned (run_with "b")
  /\ run_task (sample_env (PyStr <$> sample_checklist) (second_times_out "a"))
              "find the first X" "example.org"
     = run_task (sample_env (PyStr <$> sample_checklist) (second_times_out "b"))
                "find the first X" "example.org"
  /\ ~ exists recover : Result Trace -> list Step,
         forall env self task website f e,
           frame (run env self task website) = Some f ->
           returned (run env self task website) = Raise e ->
           recover (returned (run env self task website)) = combined_history f.
Proof.
  intros run_with.
  assert (returned (run_with "a") = Raise (TimeoutError "")) as Ha by reflexivity.
  assert (returned (run_with "b") = Raise (TimeoutError "")) as Hb by reflexivity.
  assert (exists fa, frame (run_with "a") = Some fa
                     /\ combined_history fa = default [] (sh_history (one_step "a")))
    as (fa & Hfa & Hca) by (eexists; split; reflexivity).
  assert (exists fb, frame (run_with "b") = Some fb
                     /\ combined_history fb = default [] (sh_history (one_step "b")))
    as (fb & Hfb & Hcb) by (eexists; split; reflexivity).
  split; [|split; [|split]].
  - rewrite Hfa, Hfb. simpl. rewrite Hca, Hcb. discriminate.
  - by rewrite Ha, Hb.
  - reflexivity.
  - intros (recover & Hrec).
    pose proof (Hrec _ _ _ _ fa (TimeoutError "") Hfa Ha) as Hra.
    pose proof (Hrec _ _ _ _ fb (TimeoutError "") Hfb Hb) as Hrb.
    fold (run_with "a") in Hra. fold (run_with "b") in Hrb.
    rewrite Ha in Hra. rewrite Hb in Hrb. rewrite Hra, Hca, Hcb in Hrb.
    discriminate Hrb.
Qed.

(* ===================================================================== *)
(** ** More on the tab handoff                                           *)
(* ===================================================================== *)

(** X1. A handoff right after a handoff changes nothing: it returns the
    same page and leaves the context as it is, whatever vanishes. *)
Theorem keep_last_page_idempotent (vanished vanished' : Page -> bool)
    (ctx : BrowserContext) :
  _keep_last_page vanished' (_keep_last_page vanished ctx).2
  = _keep_last_page vanished ctx.
Proof.
  destruct (last (open_pages ctx)) as [lastp|] eqn:Hlast.
  - destruct (keep_last_page_some vanished ctx lastp Hlast) as [-> Hopen].
    cbn [snd]. unfold _keep_last_page at 1. rewrite Hopen. done.
  - unfold _keep_last_page at 2. rewrite Hlast. cbn [snd].
    unfold _keep_last_page. by rewrite Hlast.
Qed.

(** X2. The handoff only closes tabs: the context keeps its page handles,
    a page that was closed stays closed, and the page it returns was open
    before and is open afterwards. *)
Theorem keep_last_page_only_closes (vanished : Page -> bool)
    (ctx : BrowserContext) :
  length (_keep_last_page vanished ctx).2 = length ctx
  /\ (forall p, is_closed ctx p = true ->
                is_closed (_keep_last_page vanished ctx).2 p = true)
  /\ (forall p, (_keep_last_page vanished ctx).1 = Ok (Some p) ->
                is_closed ctx p = false
                /\ is_closed (_keep_last_page vanished ctx).2 p = false).
Proof.
  destruct (last (open_pages ctx)) as [lastp|] eqn:Hlast.
  - destruct (keep_last_page_some vanished ctx lastp Hlast) as [-> Hopen].
    cbn [fst snd]. split; [apply closed_all_length|]. split.
    + intros p Hp.
      destruct (is_closed (closed_all _ ctx) p) eqn:Hc; [done|].
      apply (is_closed_closed_all vanished) in Hc as [Hc _]. congruence.
    + intros p [= <-].
      assert (lastp ∈ open_pages (closed_all (removelast (open_pages ctx)) ctx))
        as Hin by (rewrite Hopen; by left).
      apply list_elem_of_filter in Hin as [Hc _]. split; [|done].
      by apply (is_closed_closed_all vanished) in Hc as [Hc _].
  - unfold _keep_last_page. rewrite Hlast. cbn [fst snd].
    split; [done|]. split; [done|]. intros p [=].
Qed.

Lemma keep_last_page_only_closes_witness :
  let ctx := [TabClosed; TabOpen; TabOpen] in
  is_closed (_keep_last_page (fun _ => true) ctx).2 0 = true
  /\ is_closed ctx 2 = false
  /\ is_closed (_keep_last_page (fun _ => true) ctx).2 2 = false.
Proof.
  intros ctx.
  destruct (keep_last_page_only_closes (fun _ => true) ctx) as (_ & Hclosed & Hkept).
  split; [apply Hclosed; reflexivity|].
  apply Hkept. reflexivity.
Defined.

(* ===================================================================== *)
(** ** save_mind2web_trace                                               *)
(* ===================================================================== *)

Lemma scan_results_last rs final :
  scan_results rs final
  = match last (omap result_response rs) with
    | Some resp => Some resp
    | None => final
    end.
Proof.
  revert final. induction rs as [|r rs IH]; intros final; [done|].
  cbn [scan_results]. rewrite IH, omap_head.
  destruct (result_response r) as [resp|]; [|done].
  rewrite last_cons. by destruct (last (omap result_response rs)).
Qed.

Lemma elem_of_concat {A} (x : A) (ls : list (list A)) :
  x ∈ concat ls <-> exists l, l ∈ ls /\ x ∈ l.
Proof.
  induction ls as [|l ls IH]; cbn [concat].
  - split; [by intros ?%elem_of_nil | by intros (l & ?%elem_of_nil & _)].
  - rewrite elem_of_app, IH. split.
    + intros [Hx|(l' & Hl' & Hx)]; [exists l; split; [by left|done]|].
      exists l'. split; [by right|done].
    + intros (l' & [->|Hl']%elem_of_cons & Hx); [by left|]. right. eauto.
Qed.

Lemma enumerate_succ {A} start (x : A) l :
  enumerate start (x :: l) = (start, x) :: enumerate (S start) l.
Proof. done. Qed.

(** What the loop over the steps collects. *)
Lemma scan_steps_collects fs hist :
  forall i acc,
    screenshot_paths (scan_steps fs i hist acc)
    = screenshot_paths acc
      ++ omap (fun x => stored_path fs x.1 x.2) (enumerate i hist)
    /\ action_history (scan_steps fs i hist acc)
       = action_history acc ++ (output_text <$> omap hs_model_output hist)
    /\ thoughts (scan_steps fs i hist acc)
       = thoughts acc ++ (output_text <$> omap hs_model_output hist)
    /\ final_response (scan_steps fs i hist acc)
       = match last (omap result_response (concat (hs_result <$> hist))) with
         | Some resp => Some resp
         | None => final_response acc
         end.
Proof.
  induction hist as [|step hist IH]; intros i acc.
  - cbn [scan_steps]. by rewrite !app_nil_r.
  - cbn [scan_steps].
    destruct (IH (S i)
      {| screenshot_paths :=
           match stored_path fs i step with
           | Some p => screenshot_paths acc ++ [p]
           | None => screenshot_paths acc
           end;
         action_history :=
           action_history acc ++ match hs_model_output step with
                                 | Some mo => [output_text mo]
                                 | None => []
                                 end;
         thoughts :=
           thoughts acc ++ match hs_model_output step with
                           | Some mo => [output_text mo]
                           | None => []
                           end;
         final_response := scan_results (hs_result step) (final_response acc) |})
      as (-> & -> & -> & ->).
    cbn [screenshot_paths action_history thoughts final_response].
    rewrite enumerate_succ, !omap_head. cbn [fst snd].
    rewrite fmap_cons. cbn [concat]. rewrite omap_app, last_app.
    rewrite scan_results_last.
    repeat split.
    + destruct (stored_path fs i step); [by rewrite <- app_assoc|done].
    + destruct (hs_model_output step); [by rewrite <- app_assoc|by rewrite app_nil_r].
    + destruct (hs_model_output step); [by rewrite <- app_assoc|by rewrite app_nil_r].
    + by destruct (last (omap result_response (concat (hs_result <$> hist)))).
Qed.

(** X3. The final response written to [result.json] is that of the last
    result, over all steps in order, that is done or carries a non-empty
    error (the error text, or "<done>"); it is missing exactly when no
    result of any step is done or failed.  Neither the file system nor
    the mode has a say in it. *)
Theorem final_response_is_last_outcome (fs : FileSystem) (data : TraceData)
    (task_desc : string) (hierarchical : bool) :
  rj_final_result_response (save_mind2web_trace fs data task_desc hierarchical)
  = last (omap result_response
            (concat (hs_result <$> default [] (td_history data))))
  /\ (rj_final_result_response
        (save_mind2web_trace fs data task_desc hierarchical) = None
      <-> forall step r,
            step ∈ default [] (td_history data) -> r ∈ hs_result step ->
            is_done r = false /\ error_truthy (step_error r) = None).
Proof.
  unfold save_mind2web_trace. cbn [rj_final_result_response].
  destruct (scan_steps_collects fs (default [] (td_history data)) 0
              {| screenshot_paths := []; action_history := [];
                 thoughts := []; final_response := None |}) as (_ & _ & _ & ->).
  cbn [final_response].
  set (rs := concat (hs_result <$> default [] (td_history data))).
  assert (forall r, r ∈ rs <->
            exists step, step ∈ default [] (td_history data) /\ r ∈ hs_result step)
    as Hrs.
  { intros r. unfold rs. rewrite elem_of_concat. split.
    - intros (l & (step & -> & Hstep)%list_elem_of_fmap & Hr). eauto.
    - intros (step & Hstep & Hr). exists (hs_result step). split; [|done].
      apply list_elem_of_fmap. eauto. }
  split; [by destruct (last (omap result_response rs))|].
  assert (last (omap result_response rs) = None
          <-> forall r, r ∈ rs -> result_response r = None) as Hnone.
  { rewrite last_None. clear Hrs. induction rs as [|r rs IH].
    - split; [by intros _ r ?%elem_of_nil|done].
    - rewrite omap_head. destruct (result_response r) eqn:Hr.
      + split; [done|]. intros Hall. specialize (Hall r (list_elem_of_here _ _)).
        congruence.
      + rewrite IH. split.
        * intros Hall r' [->|Hin]%elem_of_cons; [done|by apply Hall].
        * intros Hall r' Hin. apply Hall. by right. }
  assert (forall r, result_response r = None
                    <-> is_done r = false /\ error_truthy (step_error r) = None)
    as Hresp.
  { intros r. unfold result_response.
    destruct (error_truthy (step_error r)), (is_done r); intuition congruence. }
  destruct (last (omap result_response rs)) eqn:Hlast.
  - split; [done|]. intros Hall. exfalso.
    assert (Some s = None) as Habs; [|discriminate Habs].
    apply Hnone. intros r Hr. apply Hresp.
    apply Hrs in Hr as (step & Hstep & Hr). by apply (Hall step).
  - split; [|done]. intros _ step r Hstep Hr. apply Hresp.
    apply (proj1 Hnone eq_refl). apply Hrs. eauto.
Qed.

Lemma first_stored_path fs hist :
  forall i,
    (exists k step,
       hist !! k = Some step
       /\ stored_path fs (i + k) step = Some (trajectory_path (i + k))
       /\ (forall k' step', k' < k -> hist !! k' = Some step' ->
             stored_path fs (i + k') step' = None)
       /\ head (omap (fun x => stored_path fs x.1 x.2) (enumerate i hist))
          = Some (trajectory_path (i + k)))
    \/ ((forall k step, hist !! k = Some step -> stored_path fs (i + k) step = None)
        /\ omap (fun x => stored_path fs x.1 x.2) (enumerate i hist) = []).
Proof.
  induction hist as [|step hist IH]; intros i.
  - right. split; [by intros k step ?|done].
  - rewrite enumerate_succ, omap_head. cbn [fst snd].
    destruct (stored_path fs i step) as [p|] eqn:Hp.
    + left. exists 0, step. rewrite Nat.add_0_r.
      assert (p = trajectory_path i) as ->.
      { unfold stored_path, store_screenshot in Hp.
        destruct (hs_screenshot step); [discriminate|].
        destruct (path_exists _ _);
          [destruct (link_ok _ _ _)|destruct (decode_ok _ _ _)]; congruence. }
      repeat split; try done. intros k' step' Hlt. lia.
    + destruct (IH (S i)) as [(k & st & Hk & Hst & Hmin & Hhead)|[Hall Hnil]].
      * left. exists (S k), st. replace (i + S k) with (S i + k) by lia.
        repeat split; try done.
        intros [|k'] step' Hlt Hk'.
        -- rewrite Nat.add_0_r. by injection Hk' as <-.
        -- replace (i + S k') with (S i + k') by lia.
           apply Hmin; [lia|done].
      * right. split; [|done]. intros [|k] st Hk.
        -- rewrite Nat.add_0_r. by injection Hk as <-.
        -- replace (i + S k) with (S i + k) by lia. by apply Hall.
Qed.

(** X4. [input_image_paths] holds at most one path: that of the first
    step whose screenshot could be stored, ["trajectory/<k>.png"] with k
    the number of that step; it is empty exactly when no step has a
    screenshot that could be stored. *)
Theorem input_image_is_first_stored_screenshot (fs : FileSystem)
    (data : TraceData) (task_desc : string) (hierarchical : bool) :
  let hist := default [] (td_history data) in
  let paths :=
    rj_input_image_paths (save_mind2web_trace fs data task_desc hierarchical) in
  (exists k step,
     paths = [trajectory_path k]
     /\ hist !! k = Some step
     /\ hs_screenshot step <> ""
     /\ stored_path fs k step = Some (trajectory_path k)
     /\ forall k' step', k' < k -> hist !! k' = Some step' ->
          stored_path fs k' step' = None)
  \/ (paths = []
      /\ forall k step, hist !! k = Some step -> stored_path fs k step = None).
Proof.
  intros hist paths. unfold paths, save_mind2web_trace.
  cbn [rj_input_image_paths]. fold hist.
  destruct (scan_steps_collects fs hist 0
              {| screenshot_paths := []; action_history := [];
                 thoughts := []; final_response := None |}) as (-> & _).
  cbn [screenshot_paths app].
  destruct (first_stored_path fs hist 0)
    as [(k & step & Hk & Hst & Hmin & Hhead)|[Hall ->]].
  - left. exists k, step. cbn [Nat.add] in *.
    repeat split; try done.
    + destruct (omap _ _) as [|p ps]; [discriminate|].
      by injection Hhead as ->.
    + intros Hshot. unfold stored_path in Hst. by rewrite Hshot in Hst.
  - right. split; [done|]. exact Hall.
Qed.

(** X5. [action_history] lists the text of the model output of every
    step that has one, in step order; [thoughts] is missing exactly when
    that list is empty and is otherwise the same texts joined by the
    separator line. *)
Theorem action_history_and_thoughts (fs : FileSystem) (data : TraceData)
    (task_desc : string) (hierarchical : bool) :
  let r := save_mind2web_trace fs data task_desc hierarchical in
  rj_action_history r
  = output_text <$> omap hs_model_output (default [] (td_history data))
  /\ (rj_thoughts r = None <-> rj_action_history r = [])
  /\ (rj_action_history r <> [] ->
        rj_thoughts r
        = Some (str_join (nl +:+ "---" +:+ nl) (rj_action_history r))).
Proof.
  intros r. unfold r, save_mind2web_trace.
  cbn [rj_action_history rj_thoughts].
  destruct (scan_steps_collects fs (default [] (td_history data)) 0
              {| screenshot_paths := []; action_history := [];
                 thoughts := []; final_response := None |})
    as (_ & -> & -> & _).
  cbn [action_history thoughts app].
  split; [done|].
  destruct (output_text <$> omap hs_model_output (default [] (td_history data)));
    split; intros; done.
Qed.

Lemma action_history_and_thoughts_witness :
  let data := {| td_history :=
                   Some [ {| hs_screenshot := "";
                             hs_model_output := Some (MoStr "open the page");
                             hs_result := [] |};
                          {| hs_screenshot := "";
                             hs_model_output := None;
                             hs_result := [] |};
                          {| hs_screenshot := "";
                             hs_model_output :=
                               Some (MoDict None (Some "click search") "{...}");
                             hs_result := [] |} ];
                 td_subtask_history := None |} in
  rj_thoughts (save_mind2web_trace
                 {| path_exists := fun _ => false; link_ok := fun _ _ => false;
                    decode_ok := fun _ _ => false |} data "t" false)
  = Some (str_join (nl +:+ "---" +:+ nl) ["open the page"; "click search"]).
Proof.
  intros data.
  apply (proj2 (proj2 (action_history_and_thoughts
           {| path_exists := fun _ => false; link_ok := fun _ _ => false;
              decode_ok := fun _ _ => false |} data "t" false))).
  discriminate.
Defined.

(* ===================================================================== *)
(** ** main: which tasks are run                                         *)
(* ===================================================================== *)

(** X6. The rows [main] works on are a tail, in dataset order, of the rows
    of the level.  When [--start_id] names the id of a row of the level,
    the tail starts at the first row with that id; when it is not given,
    is empty or matches no row, every row of the level is selected. *)
Theorem selected_rows_from_start_id (start_id : option string) (level : string)
    (tasks : list Row) :
  let rows := level_rows level tasks in
  let selected := selected_rows start_id level tasks in
  (exists skipped, rows = skipped ++ selected)
  /\ (forall sid row,
        start_id = Some sid -> sid <> "" -> row ∈ rows -> row_task_id row = sid ->
        exists skipped first rest,
          rows = skipped ++ first :: rest
          /\ selected = first :: rest
          /\ row_task_id first = sid
          /\ forall r, r ∈ skipped -> row_task_id r <> sid)
  /\ (start_id = None \/ start_id = Some ""
      \/ (forall row, row ∈ rows -> Some (row_task_id row) <> start_id) ->
      selected = rows).
Proof.
  intros rows selected. unfold selected, selected_rows. fold rows.
  split; [|split].
  - exists (take (start_index start_id rows) rows). by rewrite take_drop.
  - intros sid row -> Hsid Hrow Hid. unfold start_index.
    destruct sid as [|c s]; [done|].
    destruct (list_find (fun r => row_task_id r = String c s) rows)
      as [[i first]|] eqn:Hfind.
    + apply list_find_Some in Hfind as (Hi & Hfirst & Hmin).
      exists (take i rows), first, (drop (S i) rows).
      split; [by rewrite take_drop_middle|].
      split; [by apply drop_S|]. split; [done|].
      intros r Hr Hrid. apply list_elem_of_lookup in Hr as [j Hj].
      pose proof (lookup_lt_Some _ _ _ Hj) as Hlt. rewrite length_take in Hlt.
      rewrite lookup_take_lt in Hj by lia.
      apply (Hmin j r Hj); [lia|done].
    + apply list_find_None in Hfind. rewrite Forall_forall in Hfind.
      by destruct (Hfind row Hrow).
  - intros [->|[->|Hnone]]; [done|done|].
    unfold start_index. destruct start_id as [[|c s]|]; [done| |done].
    destruct (list_find _ rows) as [[i first]|] eqn:Hfind; [|done].
    apply list_find_Some in Hfind as (Hi & Hfirst & _).
    destruct (Hnone first); [by eapply list_elem_of_lookup_2|by rewrite Hfirst].
Qed.

Lemma selected_rows_from_start_id_witness :
  let tasks := [ mkRow "a" "medium" "find a" "a.org";
                 mkRow "b" "hard" "find b" "b.org";
                 mkRow "c" "medium" "find c" "c.org";
                 mkRow "d" "medium" "find d" "d.org" ] in
  exists skipped first rest,
    level_rows "medium" tasks = skipped ++ first :: rest
    /\ selected_rows (Some "c") "medium" tasks = first :: rest
    /\ row_task_id first = "c"
    /\ forall r, r ∈ skipped -> row_task_id r <> "c".
Proof.
  intros tasks.
  apply (proj1 (proj2 (selected_rows_from_start_id (Some "c") "medium" tasks))
           "c" (mkRow "c" "medium" "find c" "c.org")); try done.
  apply (list_elem_of_lookup_2 _ 1). reflexivity.
Defined.

Lemma run_rows_all_present world rows (outputs : gset string) :
  (forall row, row ∈ rows -> task_dir row ∈ outputs) ->
  run_rows world rows outputs = (Ok tt, outputs, []).
Proof.
  induction rows as [|row rows IH]; intros Hall; [done|].
  cbn [run_rows]. rewrite bool_decide_eq_true_2 by (apply Hall; by left).
  apply IH. intros r Hr. apply Hall. by right.
Qed.

Lemma run_rows_facts world rows :
  forall outputs : gset string,
    (run_rows world rows outputs).2 `sublist_of` rows
    /\ (forall row, row ∈ (run_rows world rows outputs).2 ->
          task_dir row ∉ outputs)
    /\ NoDup (task_dir <$> (run_rows world rows outputs).2)
    /\ outputs ⊆ (run_rows world rows outputs).1.2
    /\ ((run_rows world rows outputs).1.1 = Ok tt ->
          forall row, row ∈ rows ->
            task_dir row ∈ (run_rows world rows outputs).1.2).
Proof.
  induction rows as [|row rows IH]; intros outputs.
  - cbn [run_rows fst snd]. repeat split; try done.
    + by intros row ?%elem_of_nil.
    + constructor.
    + by intros _ row ?%elem_of_nil.
  - cbn [run_rows]. case_bool_decide as Hdir.
    + destruct (IH outputs) as (Hsub & Hnew & Hnd & Hmono & Hall).
      repeat split; try done.
      * by apply sublist_cons.
      * intros Hok r [->|Hr]%elem_of_cons; [by apply Hmono|by apply Hall].
    + destruct (IH ({[task_dir row]} ∪ outputs)) as (Hsub & Hnew & Hnd & Hmono & Hall).
      destruct (run_task _ _ _) eqn:Htask;
        [ destruct (run_rows world rows ({[task_dir row]} ∪ outputs))
            as [[r outputs'] ran]; cbn [fst snd] in *..
        | cbn [fst snd] ].
      1,2: repeat split;
        [ by apply sublist_skip
        | intros r0 [->|Hr]%elem_of_cons; [done|];
          intros Hin; apply (Hnew _ Hr), elem_of_union; by right
        | rewrite fmap_cons; apply NoDup_cons; split; [|done];
          intros (r0 & Heq & Hr)%list_elem_of_fmap;
          apply (Hnew _ Hr), elem_of_union; left;
          by apply elem_of_singleton
        | intros d Hd; apply Hmono, elem_of_union; by right
        | intros Hok r0 [->|Hr]%elem_of_cons; [|by apply Hall];
          apply Hmono, elem_of_union; left; by apply elem_of_singleton ].
      repeat split; try done.
      * apply sublist_skip, sublist_nil_l.
      * by intros r0 ->%list_elem_of_singleton.
      * cbn. apply NoDup_singleton.
Qed.

(** X7. [main] skips the rows whose directory already has output, and
    runs no directory twice: the rows it runs are among the selected rows,
    in order, none had output before and their directories are pairwise
    different; output that exists is kept.  When [main] comes to its end,
    every selected row has output, so running [main] once more runs no
    task. *)
Theorem main_runs_only_missing_tasks (world world' : Row -> Env)
    (tasks : list Row) (start_id : option string) (outputs : gset string) :
  let out := main world tasks start_id outputs in
  out.2 `sublist_of` selected_rows start_id "medium" tasks
  /\ (forall row, row ∈ out.2 -> task_dir row ∉ outputs)
  /\ NoDup (task_dir <$> out.2)
  /\ outputs ⊆ out.1.2
  /\ (out.1.1 = Ok tt ->
        (forall row, row ∈ selected_rows start_id "medium" tasks ->
           task_dir row ∈ out.1.2)
        /\ main world' tasks start_id out.1.2 = (Ok tt, out.1.2, [])).
Proof.
  intros out. unfold out, main.
  destruct (run_rows_facts world (selected_rows start_id "medium" tasks) outputs)
    as (Hsub & Hnew & Hnd & Hmono & Hall).
  repeat split; try done.
  - by apply Hall.
  - apply run_rows_all_present. by apply Hall.
Qed.

Lemma main_runs_only_missing_tasks_witness :
  let world := fun _ : Row => sample_env (PyStr <$> sample_checklist) all_complete in
  let tasks := [ mkRow "a" "medium" "find a" "a.org";
                 mkRow "b" "medium" "find b" "b.org";
                 mkRow "a" "medium" "find a again" "a.org" ] in
  let out := main world tasks None {[ "medium/b" ]} in
  (forall row, row ∈ selected_rows None "medium" tasks -> task_dir row ∈ out.1.2)
  /\ main planner_down_world tasks None out.1.2 = (Ok tt, out.1.2, []).
Proof.
  intros world tasks out.
  apply (proj2 (proj2 (proj2 (proj2
           (main_runs_only_missing_tasks world planner_down_world tasks None
              {[ "medium/b" ]}))))).
  vm_compute. reflexivity.
Defined.

(* ===================================================================== *)
(** ** More on the run                                                   *)
(* ===================================================================== *)

Lemma elem_of_invocations evs j params :
  (j, params) ∈ invocations evs <-> EvAgentRun j params ∈ evs.
Proof.
  unfold invocations. rewrite list_elem_of_omap. split.
  - intros (ev & Hev & Hsome). destruct ev; try discriminate.
    by injection Hsome as -> ->.
  - intros Hev. by exists (EvAgentRun j params).
Qed.

Lemma elem_of_handoffs evs i pg :
  (i, pg) ∈ handoffs evs <-> EvKeepLastPage i pg ∈ evs.
Proof.
  unfold handoffs. rewrite list_elem_of_omap. split.
  - intros (ev & Hev & Hsome). destruct ev; try discriminate.
    by injection Hsome as -> ->.
  - intros Hev. by exists (EvKeepLastPage i pg).
Qed.

Lemma elem_of_snapshots evs i sts :
  (i, sts) ∈ snapshots evs
  <-> EvIteration i sts ∈ evs \/ EvMarkDone i sts ∈ evs
      \/ exists err, EvMarkError i err sts ∈ evs.
Proof.
  unfold snapshots. rewrite list_elem_of_omap. split.
  - intros (ev & Hev & Hsome). destruct ev; try discriminate;
      injection Hsome as -> ->; eauto.
  - intros [Hev|[Hev|[err Hev]]]; eexists; (split; [exact Hev|done]).
Qed.

(** The events of a run that belong to a subtask are those of its loop. *)
Lemma run_loop_events env self task website ev i :
  ev ∈ events (run env self task website) -> event_idx ev = Some i ->
  exists checklist evp,
    plan env task website = (Ok checklist, evp)
    /\ ev ∈ (run_subtasks env (ensure_browser self).1 task 1 checklist
               (initial_frame (ensure_browser self).1 checklist)).2.
Proof.
  intros Hin Hidx.
  destruct (plan env task website) as [[checklist|e] evp] eqn:Hplan.
  - destruct (run_planned env self task website checklist evp Hplan)
      as (r & f & ev_loop & Hloop & _ & _ & Hev).
    destruct (run_planned_outside env self task website checklist evp Hplan)
      as [Hpre Hpost]. specialize (Hpost r).
    rewrite Forall_forall in Hpre, Hpost.
    exists checklist, evp. split; [done|]. rewrite Hloop. cbn [snd].
    rewrite Hev in Hin.
    apply elem_of_app in Hin as [Hin|Hin];
      [specialize (Hpre _ Hin); congruence|].
    apply elem_of_app in Hin as [Hin|Hin]; [done|].
    specialize (Hpost _ Hin). congruence.
  - rewrite (run_unplanned env self task website e evp Hplan) in Hin.
    cbn [events] in Hin. exfalso.
    pose proof (plan_outside env task website) as Hp. rewrite Hplan in Hp.
    cbn [snd] in Hp. pose proof (ensure_browser_outside self) as Hi.
    pose proof (Forall_app_2 _ _ _ Hi Hp) as Hall.
    rewrite Forall_forall in Hall. specialize (Hall _ Hin). congruence.
Qed.

Section LoopParams.
Variables (env : Env) (self : HierarchicalAgent) (task : string).

Lemma build_params_page idx subtask pg sts :
  build_params self task idx subtask pg sts !! "page" = Some (VPage pg).
Proof.
  unfold build_params.
  rewrite lookup_insert_ne by done.
  destruct (bool_decide _); [|rewrite lookup_insert_ne by done];
    (destruct (_ && _); [rewrite lookup_insert_ne by done|]);
    by rewrite !lookup_insert_ne, lookup_insert_eq by done.
Qed.

Lemma build_params_sensitive_data idx subtask pg sts :
  build_params self task idx subtask pg sts !! "sensitive_data"
  = if bool_decide (sensitive_data self = ∅) then None
    else Some (VSensitive (sensitive_data self)).
Proof.
  unfold build_params.
  rewrite lookup_insert_ne by done.
  destruct (bool_decide _); [|by rewrite lookup_insert_eq];
    (destruct (_ && _); [rewrite lookup_insert_ne by done|]);
    by rewrite !lookup_insert_ne, lookup_empty by done.
Qed.

Lemma build_params_extend_system_message idx subtask pg sts :
  build_params self task idx subtask pg sts !! "extend_system_message"
  = Some (VStr (extend_system_message task (formatted_progress idx sts))).
Proof. unfold build_params. by rewrite lookup_insert_eq. Qed.

(** The keyword dict of each invocation is built on the status list in
    which the earlier subtasks are done and the others not started. *)
Lemma run_subtasks_params idx rest f :
  forall pre, idx = S (length pre) -> statuses f = statuses_at pre rest ->
  forall j params,
    (j, params) ∈ invocations (run_subtasks env self task idx rest f).2 ->
    exists k subtask pg,
      j = idx + k /\ rest !! k = Some subtask
      /\ params = build_params self task j subtask pg
                    (statuses_at (pre ++ take k rest) (drop k rest)).
Proof.
  apply (run_subtasks_cases env self task
    (fun idx rest f res => forall pre, idx = S (length pre) ->
       statuses f = statuses_at pre rest ->
       forall j params, (j, params) ∈ invocations res.2 ->
         exists k subtask pg,
           j = idx + k /\ rest !! k = Some subtask
           /\ params = build_params self task j subtask pg
                         (statuses_at (pre ++ take k rest) (drop k rest)))); clear.
  - intros idx f pre _ _ j params Hin. by apply elem_of_nil in Hin.
  - intros idx subtask rest f sh ctx1 sts page' ctx2 r f' later
      _ Hmut _ _ IH pre -> Hst j params Hin. cbn [fst snd] in *.
    rewrite Hst in Hmut. unfold statuses_at in Hmut.
    rewrite fmap_cons in Hmut. norm_index.
    rewrite mutate_at_current in Hmut. injection Hmut as <-.
    rewrite invocations_completed in Hin.
    apply elem_of_cons in Hin as [[= -> ->]|Hin].
    + exists 0, subtask, (page f). rewrite Nat.add_0_r, Hst.
      cbn [take drop]. by rewrite app_nil_r.
    + destruct (IH (pre ++ [subtask])) with (j := j) (params := params)
        as (k & s & pg & -> & Hk & ->);
        [rewrite length_app; simpl; lia | apply statuses_at_next | done |].
      exists (S k), s, pg. split; [lia|]. split; [done|].
      replace (S (length pre) + S k) with (S (S (length pre)) + k) by lia.
      cbn [take drop]. by rewrite <- app_assoc.
  - intros idx subtask rest f sh ctx1 _ Hmut pre -> Hst. exfalso.
    rewrite Hst in Hmut. unfold statuses_at in Hmut.
    rewrite fmap_cons in Hmut. norm_index.
    by rewrite mutate_at_current in Hmut.
  - intros idx subtask rest f e ctx1 r f' evs _ Hexc pre -> Hst j params Hin.
    cbn [snd] in Hin.
    pose proof (except_clauses_only_marks self (S (length pre)) e
                  (after_executor f ctx1)) as Hm.
    rewrite Hexc in Hm. cbn [snd] in Hm. rewrite Forall_forall in Hm.
    apply elem_of_invocations in Hin. unfold iteration_start in Hin.
    elem_cases Hin.
    + injection Hin as -> ->. exists 0, subtask, (page f).
      rewrite Nat.add_0_r, Hst. cbn [take drop]. by rewrite app_nil_r.
    + destruct (Hm _ Hin) as (m & sts & [=]).
Qed.

(** The page each invocation starts on: the loop's current page for the
    first one, and for every other the page the handoff before it
    returned. *)
Lemma run_subtasks_pages idx rest f :
  (forall params,
     (idx, params) ∈ invocations (run_subtasks env self task idx rest f).2 ->
     params !! "page" = Some (VPage (page f)))
  /\ (forall i pg params,
        (i, pg) ∈ handoffs (run_subtasks env self task idx rest f).2 ->
        (S i, params) ∈ invocations (run_subtasks env self task idx rest f).2 ->
        params !! "page" = Some (VPage pg)).
Proof.
  apply (run_subtasks_cases env self task
    (fun idx rest f res =>
       (forall params, (idx, params) ∈ invocations res.2 ->
          params !! "page" = Some (VPage (page f)))
       /\ (forall i pg params,
             (i, pg) ∈ handoffs res.2 -> (S i, params) ∈ invocations res.2 ->
             params !! "page" = Some (VPage pg)))); clear idx rest f.
  - intros idx f. split; [intros params Hin|intros i pg params Hin _];
      by apply elem_of_nil in Hin.
  - intros idx subtask rest f sh ctx1 sts page' ctx2 r f' later
      _ _ _ Hrest [IH1 IH2]. cbn [fst snd] in *.
    pose proof (run_subtasks_event_idx env self task (S idx) rest
                  (after_subtask f sts sh page' ctx2)) as Hidx.
    rewrite Hrest in Hidx. cbn [snd] in Hidx. rewrite Forall_forall in Hidx.
    split.
    + intros params Hin. rewrite invocations_completed in Hin.
      apply elem_of_cons in Hin as [[= ->]|Hin]; [apply build_params_page|].
      apply elem_of_invocations in Hin.
      destruct (Hidx _ Hin) as (i' & [= <-] & Hle). lia.
    + intros i pg params Hh Hin.
      apply elem_of_handoffs in Hh. rewrite invocations_completed in Hin.
      apply elem_of_cons in Hin as [[= Hi ->]|Hin].
      * exfalso. unfold iteration_start in Hh. elem_cases Hh.
        -- injection Hh as ? ?. lia.
        -- destruct (Hidx _ Hh) as (i' & [= <-] & Hle). lia.
      * unfold iteration_start in Hh. elem_cases Hh.
        -- injection Hh as -> ->. by apply IH1.
        -- apply (IH2 i pg params); [by apply elem_of_handoffs|done].
  - intros idx subtask rest f sh ctx1 _ _. cbn [snd]. split.
    + intros params Hin. apply elem_of_invocations in Hin.
      unfold iteration_start in Hin. elem_cases Hin.
      injection Hin as ->. apply build_params_page.
    + intros i pg params Hh _. apply elem_of_handoffs in Hh.
      unfold iteration_start in Hh. by elem_cases Hh.
  - intros idx subtask rest f e ctx1 r f' evs _ Hexc. cbn [snd].
    pose proof (except_clauses_only_marks self idx e (after_executor f ctx1)) as Hm.
    rewrite Hexc in Hm. cbn [snd] in Hm. rewrite Forall_forall in Hm.
    split.
    + intros params Hin. apply elem_of_invocations in Hin.
      unfold iteration_start in Hin. elem_cases Hin.
      * injection Hin as ->. apply build_params_page.
      * destruct (Hm _ Hin) as (m & sts & [=]).
    + intros i pg params Hh _. apply elem_of_handoffs in Hh.
      unfold iteration_start in Hh. elem_cases Hh.
      destruct (Hm _ Hh) as (m & sts & [=]).
Qed.

Lemma names_at_current (pre : list string) (st : SubtaskStatus)
    (rest : list string) :
  name <$> ((done_status <$> pre) ++ st :: (new_status <$> rest))
  = pre ++ name st :: rest.
Proof.
  rewrite fmap_app, fmap_cons, <- !list_fmap_compose.
  f_equal; [|f_equal]; by apply list_fmap_id.
Qed.

(** The names in the status list never change. *)
Lemma run_subtasks_names idx rest f :
  forall pre, idx = S (length pre) -> statuses f = statuses_at pre rest ->
  Forall (fun x => name <$> x.2 = pre ++ rest)
         (snapshots (run_subtasks env self task idx rest f).2).
Proof.
  pose proof names_at_current as Hnames.
  apply (run_subtasks_cases env self task
    (fun idx rest f res => forall pre, idx = S (length pre) ->
       statuses f = statuses_at pre rest ->
       Forall (fun x => name <$> x.2 = pre ++ rest) (snapshots res.2)));
    clear idx rest f.
  - intros. constructor.
  - intros idx subtask rest f sh ctx1 sts page' ctx2 r f' later
      _ Hmut _ _ IH pre -> Hst. cbn [fst snd] in *.
    rewrite Hst in Hmut. unfold statuses_at in Hmut. rewrite fmap_cons in Hmut.
    norm_index. rewrite mutate_at_current in Hmut. injection Hmut as <-.
    rewrite !snapshots_app.
    change (snapshots (iteration_start self task (S (length pre)) subtask f))
      with [(S (length pre), statuses f)].
    change (snapshots [EvReturned (S (length pre)) sh;
                       EvMarkDone (S (length pre))
                         ((done_status <$> pre) ++ mark_done (new_status subtask)
                            :: (new_status <$> rest))])
      with [(S (length pre),
             (done_status <$> pre) ++ mark_done (new_status subtask)
               :: (new_status <$> rest))].
    change (snapshots [EvKeepLastPage (S (length pre)) page']) with
      (@nil (nat * list SubtaskStatus)).
    rewrite Hst. unfold statuses_at. rewrite fmap_cons. cbn [app].
    constructor; [exact (Hnames pre _ rest)|].
    constructor; [exact (Hnames pre _ rest)|].
    eapply Forall_impl.
    + apply (IH (pre ++ [subtask]));
        [rewrite length_app; simpl; lia | apply statuses_at_next].
    + intros x ->. by rewrite <- app_assoc.
  - intros idx subtask rest f sh ctx1 _ Hmut pre -> Hst. exfalso.
    rewrite Hst in Hmut. unfold statuses_at in Hmut.
    rewrite fmap_cons in Hmut. norm_index.
    by rewrite mutate_at_current in Hmut.
  - intros idx subtask rest f e ctx1 r f' evs _ Hexc pre Hidx Hst.
    destruct (except_clauses_current self _ _ _ _ _ _ _ _ _ _ Hidx Hst Hexc)
      as (_ & _ & Hst' & ->). subst idx. cbn [snd].
    rewrite !snapshots_app.
    change (snapshots (iteration_start self task (S (length pre)) subtask f))
      with [(S (length pre), statuses f)].
    change (snapshots [EvRaised (S (length pre)) e]) with
      (@nil (nat * list SubtaskStatus)).
    rewrite Hst. unfold statuses_at. rewrite fmap_cons. cbn [app].
    constructor; [exact (Hnames pre _ rest)|].
    destruct (failure_message self e); cbn [from_option] in *;
      repeat constructor. cbn [snd]. rewrite Hst'. exact (Hnames pre _ rest).
Qed.
End LoopParams.

(** Each executor invocation of a run is built for the checklist entry of
    its number, on the status list in which the entries before it are done
    and the others not started. *)
Lemma run_invocation_built env self task website j params :
  (j, params) ∈ invocations (events (run env self task website)) ->
  exists checklist subtask pg,
    (plan env task website).1 = Ok checklist
    /\ 1 <= j /\ checklist !! (j - 1) = Some subtask
    /\ params = build_params (ensure_browser self).1 task j subtask pg
                  (statuses_at (take (j - 1) checklist) (drop (j - 1) checklist)).
Proof.
  intros Hin. apply elem_of_invocations in Hin.
  destruct (run_loop_events env self task website _ j Hin eq_refl)
    as (checklist & evp & Hplan & Hloop).
  apply elem_of_invocations in Hloop.
  destruct (run_subtasks_params env (ensure_browser self).1 task 1 checklist
              (initial_frame (ensure_browser self).1 checklist) [] eq_refl eq_refl
              j params Hloop) as (k & subtask & pg & -> & Hk & ->).
  exists checklist, subtask, pg. rewrite Hplan. cbn [fst app].
  replace (1 + k - 1) with k by lia. repeat split; try done. lia.
Qed.

Lemma playwright_stops_app evs1 evs2 :
  playwright_stops (evs1 ++ evs2) = playwright_stops evs1 + playwright_stops evs2.
Proof. unfold playwright_stops. by rewrite List.filter_app, length_app. Qed.

Lemma run_playwright_stops env self task website :
  is_Some (playwright (ensure_browser self).1) ->
  playwright_stops (events (run env self task website))
  = session_kills (events (run env self task website)).
Proof.
  intros [pw Hpw].
  assert (playwright_stops ((ensure_browser self).2 ++ (plan env task website).2)
          = 0) as Hzero.
  { unfold ensure_browser, plan.
    destruct (context self), (planner_chain _ _); try done;
      destruct (refine_chain _ _); done. }
  rewrite run_session_kills.
  destruct (plan env task website) as [[checklist|e] evp] eqn:Hplan;
    cbn [fst snd] in *.
  - destruct (run_planned env self task website checklist evp Hplan)
      as (r & f & ev_loop & Hloop & _ & -> & ->).
    pose proof (run_subtasks_event_idx env (ensure_browser self).1 task 1
                  checklist (initial_frame (ensure_browser self).1 checklist)) as Hin.
    rewrite Hloop in Hin. cbn [snd] in Hin.
    apply inside_no_teardown in Hin as [_ Hin].
    assert (playwright_stops (teardown (ensure_browser self).1) = 1) as Hone.
    { unfold teardown. by rewrite Hpw. }
    rewrite playwright_stops_app in Hzero.
    rewrite !playwright_stops_app, Hin, Hone.
    change (playwright_stops [EvSessionStart]) with 0.
    destruct r; [rewrite Hone|change (playwright_stops []) with 0]; lia.
  - by rewrite (run_unplanned env self task website e evp Hplan).
Qed.

(** X8. How often the teardown runs on each exit path of [run]:
    [session.kill] runs once when the loop is left by an exception, twice
    when the loop completes, and not at all when planning fails; whenever
    the agent holds a Playwright handle (as every agent does that started
    its browser itself), [playwright.stop] runs as often. *)
Theorem teardown_by_exit_path env self task website :
  session_kills (events (run env self task website))
  = match (plan env task website).1, returned (run env self task website) with
    | Raise _, _ => 0
    | Ok _, Raise _ => 1
    | Ok _, Ok _ => 2
    end
  /\ (context self = None \/ is_Some (playwright self) ->
      playwright_stops (events (run env self task website))
      = session_kills (events (run env self task website))).
Proof.
  split; [apply run_session_kills|].
  intros Hpw. apply run_playwright_stops. unfold ensure_browser.
  destruct (context self); [|by eexists].
  by destruct Hpw.
Qed.

Lemma teardown_by_exit_path_witness :
  let out := run (sample_env (PyStr <$> sample_checklist) (second_times_out "s1"))
                 sample_agent "find the first X" "example.org" in
  playwright_stops (events out) = session_kills (events out).
Proof.
  intros out.
  apply (proj2 (teardown_by_exit_path
                  (sample_env (PyStr <$> sample_checklist) (second_times_out "s1"))
                  sample_agent "find the first X" "example.org")).
  left. reflexivity.
Defined.

(** X9. A cancellation that reaches the executor call of subtask [i] (an
    exception that is no [Exception]) passes both except clauses: the run
    raises it after one teardown, the status of subtask [i] stays pending
    with no error recorded, and [run_task] does not catch it, so that no
    [result.json] is written. *)
Theorem cancellation_leaves_no_record env self task website i e :
  EvRaised i e ∈ events (run env self task website) ->
  is_Exception e = false ->
  returned (run env self task website) = Raise e
  /\ (exists f checklist subtask,
        frame (run env self task website) = Some f
        /\ (plan env task website).1 = Ok checklist
        /\ checklist !! (i - 1) = Some subtask
        /\ statuses f !! (i - 1) = Some (new_status subtask))
  /\ session_kills (events (run env self task website)) = 1
  /\ (self = task_agent website ->
      run_task env task website = Propagated e
      /\ forall fs, task_result_json fs env task website = None).
Proof.
  intros Hin Hexc.
  destruct (run_loop_events env self task website _ i Hin eq_refl)
    as (checklist & evp & Hplan & Hloop).
  destruct (run_planned env self task website checklist evp Hplan)
    as (r & f & ev_loop & Hrun & Hframe & Hret & Hev).
  pose proof (run_subtasks_raised env (ensure_browser self).1 task 1 checklist
                (initial_frame (ensure_browser self).1 checklist) []
                eq_refl eq_refl i e Hloop) as Hraised.
  rewrite Hrun in Hraised. cbn [fst snd] in Hraised.
  destruct Hraised as (-> & (subtask & Hsub & Hst) & _).
  assert (returned (run env self task website) = Raise e) as Hreturned by done.
  split; [done|]. split; [|split].
  - exists f, checklist, subtask. rewrite Hplan. repeat split; try done.
    rewrite Hst. f_equal. unfold status_after, failure_message.
    destruct e; try discriminate Hexc. done.
  - by rewrite run_session_kills, Hplan, Hreturned.
  - intros ->.
    assert (run_task env task website = Propagated e) as Htask.
    { unfold run_task. by rewrite Hreturned, Hexc. }
    split; [done|]. intros fs. unfold task_result_json. by rewrite Htask.
Qed.

Lemma cancellation_leaves_no_record_witness :
  let env := sample_env (PyStr <$> sample_checklist) second_cancelled in
  let out := run env sample_agent "find the first X" "example.org" in
  returned out = Raise CancelledError
  /\ (exists f checklist subtask,
        frame out = Some f
        /\ (plan env "find the first X" "example.org").1 = Ok checklist
        /\ checklist !! (2 - 1) = Some subtask
        /\ statuses f !! (2 - 1) = Some (new_status subtask))
  /\ session_kills (events out) = 1.
Proof.
  intros env out.
  destruct (cancellation_leaves_no_record env sample_agent "find the first X"
              "example.org" 2 CancelledError) as (H1 & H2 & H3 & _).
  - apply (list_elem_of_lookup_2 _ 11). vm_compute. reflexivity.
  - reflexivity.
  - by split.
Defined.

(** X10. [sensitive_data] goes to every executor invocation alike: each
    keyword dict has the key exactly when the agent's dict is not empty
    (an agent built without one has the empty dict), with that dict as its
    value. *)
Theorem sensitive_data_for_every_subtask env self task website j params :
  (j, params) ∈ invocations (events (run env self task website)) ->
  params !! "sensitive_data"
  = if bool_decide (sensitive_data self = ∅) then None
    else Some (VSensitive (sensitive_data self)).
Proof.
  intros Hin.
  destruct (run_invocation_built env self task website j params Hin)
    as (checklist & subtask & pg & _ & _ & _ & ->).
  rewrite build_params_sensitive_data.
  by destruct (ensure_browser_keeps self) as (_ & _ & ->).
Qed.

Lemma sensitive_data_for_every_subtask_witness :
  let env := sample_env (PyStr <$> sample_checklist) all_complete in
  let out := run env (task_agent "example.org") "find the first X" "example.org" in
  exists params,
    (3, params) ∈ invocations (events out)
    /\ params !! "sensitive_data" = Some (VSensitive task_sensitive_data).
Proof.
  intros env out.
  assert (exists params, invocations (events out) !! 2 = Some (3, params))
    as [params Hparams] by (eexists; reflexivity).
  exists params.
  pose proof (list_elem_of_lookup_2 _ _ _ Hparams) as Hin.
  split; [exact Hin|].
  exact (sensitive_data_for_every_subtask env (task_agent "example.org")
           "find the first X" "example.org" 3 params Hin).
Defined.

(** X11. The page an executor invocation starts on: subtask 1 gets no
    page, and subtask [i+1] gets the page the handoff after subtask [i]
    returned. *)
Theorem page_is_handed_from_subtask_to_subtask env self task website :
  (forall params,
     (1, params) ∈ invocations (events (run env self task website)) ->
     params !! "page" = Some (VPage None))
  /\ (forall i pg params,
        (i, pg) ∈ handoffs (events (run env self task website)) ->
        (S i, params) ∈ invocations (events (run env self task website)) ->
        params !! "page" = Some (VPage pg)).
Proof.
  split.
  - intros params Hin. apply elem_of_invocations in Hin.
    destruct (run_loop_events env self task website _ 1 Hin eq_refl)
      as (checklist & evp & Hplan & Hloop).
    apply elem_of_invocations in Hloop.
    by apply (proj1 (run_subtasks_pages env (ensure_browser self).1 task 1
                       checklist (initial_frame (ensure_browser self).1 checklist))).
  - intros i pg params Hh Hin.
    apply elem_of_handoffs in Hh. apply elem_of_invocations in Hin.
    destruct (run_loop_events env self task website _ i Hh eq_refl)
      as (checklist & evp & Hplan & Hloop).
    destruct (run_loop_events env self task website _ (S i) Hin eq_refl)
      as (checklist' & evp' & Hplan' & Hloop').
    rewrite Hplan in Hplan'. injection Hplan' as <- <-.
    apply elem_of_handoffs in Hloop. apply elem_of_invocations in Hloop'.
    by apply (proj2 (run_subtasks_pages env (ensure_browser self).1 task 1
                       checklist (initial_frame (ensure_browser self).1 checklist))
                i pg params).
Qed.

Lemma page_is_handed_from_subtask_to_subtask_witness :
  let env := sample_env (PyStr <$> sample_checklist) all_complete in
  let out := run env sample_agent "find the first X" "example.org" in
  exists params,
    (2, params) ∈ invocations (events out)
    /\ (1, Some 1) ∈ handoffs (events out)
    /\ params !! "page" = Some (VPage (Some 1)).
Proof.
  intros env out.
  assert (exists params, invocations (events out) !! 1 = Some (2, params))
    as [params Hparams] by (eexists; reflexivity).
  exists params.
  pose proof (list_elem_of_lookup_2 _ _ _ Hparams) as Hin.
  assert ((1, Some 1) ∈ handoffs (events out)) as Hh
    by (apply (list_elem_of_lookup_2 _ 0); reflexivity).
  split; [exact Hin|]. split; [exact Hh|].
  exact (proj2 (page_is_handed_from_subtask_to_subtask env sample_agent
                  "find the first X" "example.org") 1 (Some 1) params Hh Hin).
Defined.

Section Digest.
Variables (self : HierarchicalAgent) (task : string).

Lemma progress_lines_not_started idx B :
  forall j, idx <= j ->
    progress_lines_from idx j (new_status <$> B)
    = (fun x => line_next x.1 (new_status x.2)) <$> enumerate j B.
Proof.
  induction B as [|b B IH]; intros j Hle; [done|].
  rewrite fmap_cons, enumerate_succ, fmap_cons. cbn [progress_lines_from fst snd].
  replace (j <? idx)%nat with false by (symmetry; apply Nat.ltb_ge; lia).
  cbn [app]. f_equal. apply IH. lia.
Qed.

Lemma progress_lines_statuses_at A B :
  forall j,
    progress_lines_from (j + length A) j (statuses_at A B)
    = ((fun x => line_done x.1 (done_status x.2)) <$> enumerate j A)
      ++ ((fun x => line_next x.1 (new_status x.2)) <$> enumerate (j + length A) B).
Proof.
  unfold statuses_at. induction A as [|a A IH]; intros j.
  - cbn [length fmap list_fmap app]. rewrite Nat.add_0_r.
    change (enumerate j (@nil string)) with (@nil (nat * string)).
    apply progress_lines_not_started. lia.
  - rewrite fmap_cons, enumerate_succ, fmap_cons.
    cbn [app progress_lines_from fst snd length].
    replace (j <? j + S (length A))%nat with true
      by (symmetry; apply Nat.ltb_lt; lia).
    cbn [done done_status mark_done app]. f_equal.
    replace (j + S (length A)) with (S j + length A) by lia. apply IH.
Qed.
End Digest.

(** X12. The progress digest an executor invocation of a run gets has one
    line per checklist entry: a done line for each entry before its own and
    a COMING UP NEXT line for its own and each later entry.  In a run the
    digest never has an error line and never leaves an entry out. *)
Theorem digest_of_a_run env self task website j params :
  (j, params) ∈ invocations (events (run env self task website)) ->
  exists checklist,
    (plan env task website).1 = Ok checklist
    /\ params !! "extend_system_message"
       = Some (VStr (extend_system_message task
            (join_nl
               (((fun x => line_done x.1 (done_status x.2))
                   <$> enumerate 1 (take (j - 1) checklist))
                ++ ((fun x => line_next x.1 (new_status x.2))
                      <$> enumerate j (drop (j - 1) checklist)))))).
Proof.
  intros Hin.
  destruct (run_invocation_built env self task website j params Hin)
    as (checklist & subtask & pg & Hplan & Hj & Hsub & ->).
  exists checklist. split; [done|].
  rewrite build_params_extend_system_message. do 3 f_equal.
  unfold formatted_progress, progress_lines. f_equal.
  pose proof (lookup_lt_Some _ _ _ Hsub) as Hlt.
  pose proof (progress_lines_statuses_at (take (j - 1) checklist)
                (drop (j - 1) checklist) 1) as Hlines.
  rewrite length_take in Hlines.
  replace (1 + (j - 1) `min` length checklist) with j in Hlines by lia.
  exact Hlines.
Qed.

Lemma digest_of_a_run_witness :
  let env := sample_env (PyStr <$> sample_checklist) all_complete in
  let out := run env sample_agent "find the first X" "example.org" in
  exists params,
    (2, params) ∈ invocations (events out)
    /\ params !! "extend_system_message"
       = Some (VStr (extend_system_message "find the first X"
            (join_nl ["✔️ Step 1: open search page";
                      "🔄 Step 2: apply filter X (COMING UP NEXT)";
                      "🔄 Step 3: select first result (COMING UP NEXT)"]))).
Proof.
  intros env out.
  assert (exists params, invocations (events out) !! 1 = Some (2, params))
    as [params Hparams] by (eexists; reflexivity).
  exists params.
  pose proof (list_elem_of_lookup_2 _ _ _ Hparams) as Hin.
  split; [exact Hin|].
  destruct (digest_of_a_run env sample_agent "find the first X" "example.org"
              2 params Hin) as (checklist & Hplan & ->).
  injection Hplan as <-. reflexivity.
Defined.

(** X13. The status list keeps its entries: at every point of a run it
    has one status per checklist entry, named after it, in checklist
    order; marking a status done or failed changes neither the number nor
    the names. *)
Theorem status_names_are_the_checklist env self task website i sts :
  (i, sts) ∈ snapshots (events (run env self task website)) ->
  exists checklist,
    (plan env task website).1 = Ok checklist
    /\ name <$> sts = checklist
    /\ length sts = length checklist.
Proof.
  intros Hin.
  assert (exists ev, ev ∈ events (run env self task website)
                     /\ event_idx ev = Some i
                     /\ forall evs, ev ∈ evs -> (i, sts) ∈ snapshots evs)
    as (ev & Hev & Hidx & Hsnap).
  { apply elem_of_snapshots in Hin as [Hev|[Hev|[err Hev]]];
      eexists; (split; [exact Hev|]); (split; [done|]);
      intros evs Hevs; apply elem_of_snapshots; eauto. }
  destruct (run_loop_events env self task website ev i Hev Hidx)
    as (checklist & evp & Hplan & Hloop).
  exists checklist. rewrite Hplan. split; [done|].
  pose proof (run_subtasks_names env (ensure_browser self).1 task 1 checklist
                (initial_frame (ensure_browser self).1 checklist) []
                eq_refl eq_refl) as Hnames.
  rewrite Forall_forall in Hnames.
  specialize (Hnames _ (Hsnap _ Hloop)). cbn [snd app] in Hnames.
  split; [done|]. by rewrite <- Hnames, length_fmap.
Qed.

Lemma status_names_are_the_checklist_witness :
  let env := sample_env (PyStr <$> sample_checklist) (second_times_out "s1") in
  exists sts checklist,
    (2, sts) ∈ snapshots (events (run env sample_agent "find the first X"
                                      "example.org"))
    /\ error <$> (sts !! 1) = Some (Some "timed out after 60.0s")
    /\ (plan env "find the first X" "example.org").1 = Ok checklist
    /\ name <$> sts = checklist
    /\ length sts = length checklist.
Proof.
  intros env.
  assert (exists sts,
            snapshots (events (run env sample_agent "find the first X"
                                   "example.org")) !! 3 = Some (2, sts)
            /\ error <$> (sts !! 1) = Some (Some "timed out after 60.0s"))
    as (sts & Hsts & Herr) by (eexists; split; reflexivity).
  pose proof (list_elem_of_lookup_2 _ _ _ Hsts) as Hin.
  destruct (status_names_are_the_checklist env sample_agent "find the first X"
              "example.org" 2 sts Hin) as (checklist & Hplan & Hnames & Hlen).
  by exists sts, checklist.
Defined.

Lemma run_started_browser_events env s task website :
  is_Some (context s) -> EvInitBrowser ∉ events (run env s task website).
Proof.
  intros [ctx Hctx] Hin.
  assert (ensure_browser s = (s, [])) as Hens
    by (unfold ensure_browser; by rewrite Hctx).
  assert (EvInitBrowser ∉ (plan env task website).2) as Hplan_ev.
  { unfold plan. destruct (planner_chain _ _); [destruct (refine_chain _ _)|];
      cbn [snd]; intros H; by elem_cases H. }
  destruct (plan env task website) as [[checklist|e] evp] eqn:Hplan;
    cbn [snd] in Hplan_ev.
  - destruct (run_planned env s task website checklist evp Hplan)
      as (r & f & ev_loop & Hloop & _ & _ & Hev).
    rewrite Hev, Hens in Hin. cbn [fst snd app] in Hin.
    pose proof (run_subtasks_event_idx env s task 1 checklist
                  (initial_frame s checklist)) as Hidx.
    rewrite Hens in Hloop. cbn [fst] in Hloop.
    rewrite Hloop in Hidx. cbn [snd] in Hidx. rewrite Forall_forall in Hidx.
    unfold teardown in Hin.
    apply elem_of_app in Hin as [Hin|Hin];
      [apply elem_of_app in Hin as [Hin|Hin]; [done|by elem_cases Hin]|].
    apply elem_of_app in Hin as [Hin|Hin].
    + by destruct (Hidx _ Hin) as (i & [=] & _).
    + destruct (playwright s), r; by elem_cases Hin.
  - rewrite (run_unplanned env s task website e evp Hplan), Hens in Hin.
    cbn [events snd app] in Hin. done.
Qed.



(** X15. What [run_task] stores for a run that returns: the
    [result.json] of [save_mind2web_trace] on the returned dict in
    hierarchical mode, which carries the task and the status list of the
    run, one done status per checklist entry in checklist order. *)
Theorem stored_result_of_a_returned_run fs env task website trace :
  returned (run env (task_agent website) task website) = Ok trace ->
  exists checklist r,
    (plan env task website).1 = Ok checklist
    /\ task_result_json fs env task website = Some r
    /\ r = save_mind2web_trace fs (trace_data trace) task true
    /\ rj_task r = task
    /\ rj_subtask_history r = Some (done_status <$> checklist).
Proof.
  intros Hret.
  destruct (run_returned env (task_agent website) task website trace Hret)
    as (checklist & evp & f & ev_loop & Hplan & Hloop & -> & _).
  pose proof (run_subtasks_all_done env (ensure_browser (task_agent website)).1
                task 1 checklist
                (initial_frame (ensure_browser (task_agent website)).1 checklist)
                [] eq_refl eq_refl) as Hdone.
  rewrite Hloop in Hdone. cbn [fst snd app] in Hdone. specialize (Hdone eq_refl).
  eexists checklist, _. rewrite Hplan.
  split; [done|]. split.
  { unfold task_result_json, run_task. by rewrite Hret. }
  split; [done|]. split; [done|].
  cbn [save_mind2web_trace rj_subtask_history trace_data td_subtask_history
       subtask_history]. by rewrite Hdone.
Qed.

Lemma stored_result_of_a_returned_run_witness :
  let env := sample_env (PyStr <$> sample_checklist) all_complete in
  let fs := {| path_exists := fun _ => false; link_ok := fun _ _ => false;
               decode_ok := fun _ _ => true |} in
  exists checklist r,
    (plan env "find the first X" "example.org").1 = Ok checklist
    /\ task_result_json fs env "find the first X" "example.org" = Some r
    /\ rj_task r = "find the first X"
    /\ rj_final_result_response r = Some "<done>"
    /\ rj_input_image_paths r = ["trajectory/0.png"]
    /\ rj_subtask_history r = Some (done_status <$> checklist).
Proof.
  intros env fs.
  assert (exists trace,
            returned (run env (task_agent "example.org") "find the first X"
                          "example.org") = Ok trace)
    as [trace Htrace] by (eexists; vm_compute; reflexivity).
  destruct (stored_result_of_a_returned_run fs env "find the first X"
              "example.org" trace Htrace)
    as (checklist & r & Hplan & Hjson & Hr & _ & Hsub).
  exists checklist, r. split; [done|]. split; [done|].
  assert (Some r = task_result_json fs env "find the first X" "example.org")
    as Hcomp by done.
  vm_compute in Hcomp. injection Hcomp as ->.
  repeat split; try reflexivity.
  injection Hplan as <-. reflexivity.
Defined.

(* ===================================================================== *)
(** ** Whitespace around the task                                        *)
(* ===================================================================== *)

Lemma string_app_cons (c : Ascii.ascii) (s t : string) :
  String c s +:+ t = String c (s +:+ t).
Proof. reflexivity. Qed.

Lemma string_app_assoc (s1 s2 s3 : string) :
  (s1 +:+ s2) +:+ s3 = s1 +:+ (s2 +:+ s3).
Proof.
  induction s1 as [|c s1 IH]; [done|]. rewrite !string_app_cons. by f_equal.
Qed.

Lemma string_app_empty_r (s : string) : s +:+ "" = s.
Proof. induction s as [|c s IH]; [done|]. rewrite string_app_cons. by f_equal. Qed.

Lemma string_rev_app_acc (s acc : string) :
  String.rev_app s acc = String.rev s +:+ acc.
Proof.
  revert acc. induction s as [|c s IH]; intros acc; [done|].
  unfold String.rev. cbn [String.rev_app].
  rewrite (IH (String c acc)), (IH (String c "")).
  by rewrite string_app_assoc.
Qed.

Lemma string_rev_cons (c : Ascii.ascii) (s : string) :
  String.rev (String c s) = String.rev s +:+ String c "".
Proof. unfold String.rev at 1. cbn [String.rev_app]. apply string_rev_app_acc. Qed.

Lemma string_rev_app (s t : string) :
  String.rev (s +:+ t) = String.rev t +:+ String.rev s.
Proof.
  induction s as [|c s IH].
  - change ("" +:+ t) with t. change (String.rev "") with "".
    by rewrite string_app_empty_r.
  - rewrite string_app_cons, !string_rev_cons, IH. apply string_app_assoc.
Qed.

Lemma all_whitespace_app (s t : string) :
  all_whitespace (s +:+ t) = all_whitespace s && all_whitespace t.
Proof.
  induction s as [|c s IH]; [done|].
  rewrite string_app_cons. cbn [all_whitespace]. rewrite IH.
  by destruct (is_whitespace c).
Qed.

Lemma all_whitespace_rev (s : string) :
  all_whitespace (String.rev s) = all_whitespace s.
Proof.
  induction s as [|c s IH]; [done|].
  rewrite string_rev_cons, all_whitespace_app, IH. cbn [all_whitespace].
  by destruct (is_whitespace c), (all_whitespace s).
Qed.

Lemma lstrip_app (s t : string) :
  lstrip (s +:+ t) = if all_whitespace s then lstrip t else lstrip s +:+ t.
Proof.
  induction s as [|c s IH]; [done|].
  rewrite string_app_cons. cbn [lstrip all_whitespace].
  destruct (is_whitespace c); [exact IH|done].
Qed.

Lemma lstrip_all_whitespace (s : string) :
  all_whitespace s = true -> lstrip s = "".
Proof.
  induction s as [|c s IH]; [done|]. cbn [lstrip all_whitespace].
  destruct (is_whitespace c); [exact IH|done].
Qed.

Lemma strip_surrounding_whitespace (pre s post : string) :
  all_whitespace pre = true -> all_whitespace post = true ->
  strip (pre +:+ s +:+ post) = strip s.
Proof.
  intros Hpre Hpost. unfold strip.
  rewrite lstrip_app, Hpre, lstrip_app.
  destruct (all_whitespace s) eqn:Hs.
  - by rewrite (lstrip_all_whitespace post), (lstrip_all_whitespace s).
  - rewrite string_rev_app, lstrip_app, all_whitespace_rev, Hpost. done.
Qed.

(** X16. Whitespace around the task and around the website does not
    reach the planning service: [plan] gives the same result, with the
    same calls, as on the bare strings. *)
Theorem plan_ignores_surrounding_whitespace env task website pre post pre' post' :
  all_whitespace pre = true -> all_whitespace post = true ->
  all_whitespace pre' = true -> all_whitespace post' = true ->
  plan env (pre +:+ task +:+ post) (pre' +:+ website +:+ post')
  = plan env task website.
Proof.
  intros Hpre Hpost Hpre' Hpost'. unfold plan.
  by rewrite !strip_surrounding_whitespace.
Qed.

Lemma plan_ignores_surrounding_whitespace_witness :
  plan (sample_env (PyStr <$> sample_checklist) all_complete)
       ("  " +:+ "find the first X" +:+ nl) ("" +:+ "example.org" +:+ " ")
  = plan (sample_env (PyStr <$> sample_checklist) all_complete)
         "find the first X" "example.org".
Proof.
  apply (plan_ignores_surrounding_whitespace
           (sample_env (PyStr <$> sample_checklist) all_complete)
           "find the first X" "example.org" "  " nl "" " ");
    reflexivity.
Defined.
